(** * Session identity resolver of the create-session route

    A shallow embedding of [resolveUserId], [getCookieValue] and
    [serializeSessionCookie] (the create-session route handler), together
    with the fragment of the JavaScript string library they call:
    [String.prototype.split], [Array.prototype.join],
    [String.prototype.trim], [String.prototype.slice] and
    [encodeURIComponent].

    A JavaScript string is a sequence of 16-bit code units; it is modelled
    as a list of code units, each a number in [N].  An exception is an
    explicit [Throw] result. *)

From Stdlib Require Import NArith List String Ascii Bool Lia DecimalString.
From Stdlib Require Import PrimFloat.
Import ListNotations.
Local Open Scope N_scope.

(** ** JavaScript strings *)

Module JS.

Definition code_unit := N.
Definition jsstring := list code_unit.

(** A string literal of the source, written in ASCII. *)
Definition lit (s : string) : jsstring :=
  map N_of_ascii (list_ascii_of_string s).

Definition ch (a : ascii) : code_unit := N_of_ascii a.

Fixpoint str_eqb (a b : jsstring) : bool :=
  match a, b with
  | [], [] => true
  | x :: a', y :: b' => (x =? y) && str_eqb a' b'
  | _, _ => false
  end.

(** ToBoolean on a string: only the empty string is falsy. *)
Definition truthy (s : jsstring) : bool :=
  match s with
  | [] => false
  | _ :: _ => true
  end.

(** ToBoolean on [string | null]. *)
Definition truthy_opt (o : option jsstring) : bool :=
  match o with
  | None => false
  | Some s => truthy s
  end.

(** [s.split(sep)] for a separator of one code unit, as the pair of the
    first piece and the list of the remaining pieces: the shape of the
    destructuring [const [first, ...rest] = s.split(sep)]. *)
Fixpoint split_parts (sep : code_unit) (s : jsstring)
  : jsstring * list jsstring :=
  match s with
  | [] => ([], [])
  | c :: s' =>
      let (piece, pieces) := split_parts sep s' in
      if c =? sep then ([], piece :: pieces) else (c :: piece, pieces)
  end.

Definition split (sep : code_unit) (s : jsstring) : list jsstring :=
  let (piece, pieces) := split_parts sep s in piece :: pieces.

(** [l.join(sep)] *)
Fixpoint join (sep : jsstring) (l : list jsstring) : jsstring :=
  match l with
  | [] => []
  | x :: l' =>
      match l' with
      | [] => x
      | _ :: _ => x ++ sep ++ join sep l'
      end
  end.

(** WhiteSpace and LineTerminator code points of ECMAScript, the ones
    [trim] removes. *)
Definition is_white_space (c : code_unit) : bool :=
  ((9 <=? c) && (c <=? 13))
  || (c =? 32) || (c =? 160) || (c =? 5760)
  || ((8192 <=? c) && (c <=? 8202))
  || (c =? 8232) || (c =? 8233) || (c =? 8239) || (c =? 8287)
  || (c =? 12288) || (c =? 65279).

Fixpoint trimStart (s : jsstring) : jsstring :=
  match s with
  | [] => []
  | c :: s' => if is_white_space c then trimStart s' else s
  end.

Definition trimEnd (s : jsstring) : jsstring :=
  rev (trimStart (rev s)).

Definition trim (s : jsstring) : jsstring :=
  trimEnd (trimStart s).

(** [s.slice(k)] for a non-negative [k]. *)
Definition slice (k : nat) (s : jsstring) : jsstring := skipn k s.

(** ToString on a non-negative integer Number (below 10^21): its decimal
    digits. *)
Definition number_toString (n : N) : jsstring :=
  lit (NilZero.string_of_uint (N.to_uint n)).

(** *** Results and exceptions *)

Inductive exn : Type :=
| URIError.

Inductive result (A : Type) : Type :=
| Ok (a : A)
| Throw (e : exn).

Arguments Ok {A} a.
Arguments Throw {A} e.

Definition bind {A B : Type} (m : result A) (k : A -> result B) : result B :=
  match m with
  | Ok a => k a
  | Throw e => Throw e
  end.

Notation "'let!' x ':=' m 'in' k" := (bind m (fun x => k))
  (at level 10, x name, m at level 100, k at level 200).

(** *** encodeURIComponent *)

Definition is_alpha_num (c : code_unit) : bool :=
  ((48 <=? c) && (c <=? 57))
  || ((65 <=? c) && (c <=? 90))
  || ((97 <=? c) && (c <=? 122)).

(** uriUnescaped: letters, digits and the marks - _ . ! ~ * ' ( ) *)
Definition is_unreserved (c : code_unit) : bool :=
  is_alpha_num c
  || (c =? 45) || (c =? 95) || (c =? 46) || (c =? 33) || (c =? 126)
  || (c =? 42) || (c =? 39) || (c =? 40) || (c =? 41).

Definition is_high_surrogate (c : code_unit) : bool :=
  (55296 <=? c) && (c <=? 56319).

Definition is_low_surrogate (c : code_unit) : bool :=
  (56320 <=? c) && (c <=? 57343).

Definition hex_digit (n : N) : code_unit :=
  if n <? 10 then 48 + n else 55 + n.

(** One octet as [%XX], upper-case hexadecimal. *)
Definition percent (octet : N) : jsstring :=
  [37; hex_digit ((octet / 16) mod 16); hex_digit (octet mod 16)].

Definition utf8 (cp : N) : list N :=
  if cp <? 128 then [cp]
  else if cp <? 2048 then [192 + cp / 64; 128 + cp mod 64]
  else if cp <? 65536 then
    [224 + cp / 4096; 128 + (cp / 64) mod 64; 128 + cp mod 64]
  else
    [240 + cp / 262144; 128 + (cp / 4096) mod 64;
     128 + (cp / 64) mod 64; 128 + cp mod 64].

Definition percent_utf8 (cp : N) : jsstring :=
  flat_map percent (utf8 cp).

(** The Encode operation with the unreserved set of encodeURIComponent:
    an unpaired surrogate throws a URIError. *)
Fixpoint encodeURIComponent (s : jsstring) : result jsstring :=
  match s with
  | [] => Ok []
  | c :: s' =>
      if is_unreserved c then
        let! r := encodeURIComponent s' in Ok (c :: r)
      else if is_low_surrogate c then Throw URIError
      else if is_high_surrogate c then
        match s' with
        | [] => Throw URIError
        | d :: s'' =>
            if is_low_surrogate d then
              let cp := (c - 55296) * 1024 + (d - 56320) + 65536 in
              let! r := encodeURIComponent s'' in Ok (percent_utf8 cp ++ r)
            else Throw URIError
        end
      else
        let! r := encodeURIComponent s' in Ok (percent_utf8 c ++ r)
  end.

End JS.

Export JS.

(** ** The route handler *)

Module Route.

Definition SESSION_COOKIE_NAME : jsstring := lit "chatkit_session_id".
Definition SESSION_COOKIE_MAX_AGE : N := 60 * 60 * 24 * 30.

(** What the handler reads of [process.env]. *)
Record Env : Type := mkEnv {
  NODE_ENV : option jsstring
}.

(** [process.env.NODE_ENV === "production"] *)
Definition is_production (env : Env) : bool :=
  match NODE_ENV env with
  | Some v => str_eqb v (lit "production")
  | None => false
  end.

(** What the handler reads of the request: [request.headers.get("cookie")]. *)
Record Request : Type := mkRequest {
  headers_get_cookie : option jsstring
}.

(** The random draw one call of [resolveUserId] consumes.
    [CryptoRandomUUID u]: [typeof crypto.randomUUID === "function"] and the
    call [crypto.randomUUID()] returns [u].
    [MathRandom s]: [crypto.randomUUID] is not a function and
    [Math.random().toString(36)] evaluates to [s]. *)
Inductive RandomSource : Type :=
| CryptoRandomUUID (uuid : jsstring)
| MathRandom (base36 : jsstring).

Record Resolved : Type := mkResolved {
  userId : jsstring;
  sessionCookie : option jsstring
}.

(** The body of the [for (const cookie of cookies)] loop. *)
Fixpoint find_cookie (name : jsstring) (cookies : list jsstring)
  : option jsstring :=
  match cookies with
  | [] => None
  | cookie :: cookies' =>
      let (rawName, rest) := split_parts (ch "=") cookie in
      if negb (truthy rawName) || Nat.eqb (List.length rest) 0 then
        find_cookie name cookies'
      else if str_eqb (trim rawName) name then
        Some (trim (join (lit "=") rest))
      else find_cookie name cookies'
  end.

Definition getCookieValue (cookieHeader : option jsstring) (name : jsstring)
  : option jsstring :=
  match cookieHeader with
  | None => None
  | Some header =>
      if negb (truthy header) then None
      else find_cookie name (split (ch ";") header)
  end.

(** The [attributes] array of [serializeSessionCookie], after the
    conditional [push], given the already encoded value. *)
Definition cookie_attributes (env : Env) (encoded : jsstring)
  : list jsstring :=
  let attributes :=
    [ SESSION_COOKIE_NAME ++ lit "=" ++ encoded;
      lit "Path=/";
      lit "Max-Age=" ++ number_toString SESSION_COOKIE_MAX_AGE;
      lit "HttpOnly";
      lit "SameSite=Lax" ] in
  if is_production env then attributes ++ [lit "Secure"] else attributes.

Definition serializeSessionCookie (env : Env) (value : jsstring)
  : result jsstring :=
  let! encoded := encodeURIComponent value in
  Ok (join (lit "; ") (cookie_attributes env encoded)).

(** The [generated] constant of [resolveUserId]. *)
Definition generate (rnd : RandomSource) : jsstring :=
  match rnd with
  | CryptoRandomUUID uuid => uuid
  | MathRandom base36 => slice 2 base36
  end.

Definition resolveUserId (request : Request) (env : Env) (rnd : RandomSource)
  : result Resolved :=
  let existing := getCookieValue (headers_get_cookie request)
                    SESSION_COOKIE_NAME in
  match existing with
  | Some e =>
      if truthy e then Ok {| userId := e; sessionCookie := None |}
      else
        let generated := generate rnd in
        let! cookie := serializeSessionCookie env generated in
        Ok {| userId := generated; sessionCookie := Some cookie |}
  | None =>
      let generated := generate rnd in
      let! cookie := serializeSessionCookie env generated in
      Ok {| userId := generated; sessionCookie := Some cookie |}
  end.

End Route.

Export Route.

(** ** Vocabulary of the specification *)

Module Spec.

(** Splitting on the first occurrence of a separator only: the name and
    the value of a [name=value] pair; [None] when there is no separator. *)
Fixpoint split_first (sep : code_unit) (s : jsstring)
  : option (jsstring * jsstring) :=
  match s with
  | [] => None
  | c :: s' =>
      if c =? sep then Some ([], s')
      else
        match split_first sep s' with
        | Some (a, b) => Some (c :: a, b)
        | None => None
        end
  end.

(** The parsing algorithm in the words of the specification: split the
    header on [;], split each pair on its first [=], trim, compare the name
    exactly, and return the value of the first pair that matches. *)
Fixpoint lookup_pair (name : jsstring) (segments : list jsstring)
  : option jsstring :=
  match segments with
  | [] => None
  | segment :: segments' =>
      match split_first (ch "=") segment with
      | Some (n, v) =>
          if str_eqb (trim n) name then Some (trim v)
          else lookup_pair name segments'
      | None => lookup_pair name segments'
      end
  end.

Definition getCookieValue_spec (cookieHeader : option jsstring)
  (name : jsstring) : option jsstring :=
  match cookieHeader with
  | None => None
  | Some header => lookup_pair name (split (ch ";") header)
  end.

(** A segment of the header is a pair named [name] with raw value [v]. *)
Definition pair_named (name : jsstring) (segment v : jsstring) : Prop :=
  exists n, split_first (ch "=") segment = Some (n, v) /\ trim n = name.

(** A segment the parser can use: it has an [=] and a non-empty name. *)
Definition well_formed_pair (segment : jsstring) : bool :=
  match split_first (ch "=") segment with
  | Some (n, _) => truthy n
  | None => false
  end.

(** The attributes a reader finds in a [Set-Cookie] value: the pieces
    between semicolons, trimmed. *)
Definition attributes_of (cookie : jsstring) : list jsstring :=
  map trim (split (ch ";") cookie).

(** [hay.includes(needle)] *)
Definition includes (hay needle : jsstring) : Prop :=
  exists a b, hay = a ++ needle ++ b.

(** The contract of [crypto.randomUUID]: 36 characters, five groups of
    8, 4, 4, 4 and 12 lower-case hexadecimal digits separated by
    hyphens. *)
Definition is_lower_hex (c : code_unit) : bool :=
  ((48 <=? c) && (c <=? 57)) || ((97 <=? c) && (c <=? 102)).

Fixpoint group_sizes (groups : list jsstring) (sizes : list nat) : bool :=
  match groups, sizes with
  | [], [] => true
  | g :: groups', n :: sizes' =>
      Nat.eqb (List.length g) n && group_sizes groups' sizes'
  | _, _ => false
  end.

Definition is_uuid (u : jsstring) : bool :=
  let groups := split (ch "-") u in
  forallb (forallb is_lower_hex) groups
  && group_sizes groups [8; 4; 4; 4; 12]%nat.

(** The contract of [Math.random().toString(36)], a number of [0, 1) in
    base 36: either ["0"], or ["0."] followed by at least one digit. *)
Definition is_base36_digit (c : code_unit) : bool :=
  ((48 <=? c) && (c <=? 57)) || ((97 <=? c) && (c <=? 122)).

Definition is_base36_fraction (s : jsstring) : bool :=
  match s with
  | [] => false
  | zero :: rest =>
      (zero =? ch "0")
      && match rest with
         | [] => true
         | dot :: digits =>
             (dot =? ch ".") && truthy digits
             && forallb is_base36_digit digits
         end
  end.

Definition valid_draw (rnd : RandomSource) : bool :=
  match rnd with
  | CryptoRandomUUID uuid => is_uuid uuid
  | MathRandom base36 => is_base36_fraction base36
  end.

(** Characters [encodeURIComponent] can produce. *)
Definition is_uri_char (c : code_unit) : bool :=
  is_unreserved c || (c =? 37).

(** The wire format of the emitted cookie, as the specification gives it:
    [chatkit_session_id=<urlEncodedId>; Path=/; Max-Age=2592000; HttpOnly;
    SameSite=Lax[; Secure]]. *)
Definition wire_format (production : bool) (encoded : jsstring) : jsstring :=
  lit "chatkit_session_id=" ++ encoded
  ++ lit "; Path=/; Max-Age=2592000; HttpOnly; SameSite=Lax"
  ++ (if production then lit "; Secure" else []).

(** Where the identifier of a resolution comes from. *)
Inductive Origin : Type :=
| FromCookie
| Generated.

(** The provenance the resolver decides on: the truthiness of the parsed
    cookie value. *)
Definition origin (request : Request) : Origin :=
  if truthy_opt (getCookieValue (headers_get_cookie request)
                   SESSION_COOKIE_NAME)
  then FromCookie else Generated.

(** No pair of the given name among these segments. *)
Definition no_pair_named (name : jsstring) (segments : list jsstring)
  : Prop :=
  Forall (fun s => forall w, ~ pair_named name s w) segments.

End Spec.

Export Spec.

(** ** The base-36 text of a number *)

Module V8.

(** [Number.prototype.toString(radix)] as V8 computes it
    (DoubleToRadixCString), for a number of [0, 1), which is what
    [Math.random()] returns: the integer part is [0], or [1] after a carry
    out of the fraction.  All arithmetic is IEEE 754 double arithmetic. *)

Fixpoint float_of_positive (p : positive) : float :=
  match p with
  | xH => 1%float
  | xO q => PrimFloat.mul 2 (float_of_positive q)
  | xI q => PrimFloat.add (PrimFloat.mul 2 (float_of_positive q)) 1
  end.

(** A small integer as a double. *)
Definition float_of_N (n : N) : float :=
  match n with
  | N0 => 0%float
  | Npos p => float_of_positive p
  end.

(** [chars[digit]], with [chars] the digits and the lower-case letters. *)
Definition radix_char (digit : N) : code_unit :=
  if digit <? 10 then 48 + digit else 87 + digit.

(** [static_cast<int>(fraction)] for [0 <= fraction <= bound]. *)
Fixpoint truncate_below (bound : nat) (fraction : float) : N :=
  match bound with
  | O => 0
  | S bound' =>
      if PrimFloat.leb (float_of_N (N.of_nat bound)) fraction
      then N.of_nat bound
      else truncate_below bound' fraction
  end.

(** The back trace over the digits written so far, the last one first:
    [None] when the carry reaches the decimal point. *)
Fixpoint carry_over (radix : N) (written : list N) : option (list N) :=
  match written with
  | [] => None
  | digit :: written' =>
      if digit + 1 <? radix then Some (digit + 1 :: written')
      else carry_over radix written'
  end.

(** The [do ... while (fraction >= delta)] loop; the buffer of V8 bounds
    the number of digits. *)
Fixpoint fraction_digits (buffer : nat) (radix : N) (fraction delta : float)
  (written : list N) : option (list N) :=
  match buffer with
  | O => Some written
  | S buffer' =>
      let fraction := PrimFloat.mul fraction (float_of_N radix) in
      let delta := PrimFloat.mul delta (float_of_N radix) in
      let digit := truncate_below (N.to_nat radix - 1) fraction in
      let written := digit :: written in
      let fraction := PrimFloat.sub fraction (float_of_N digit) in
      if (PrimFloat.ltb 0.5 fraction
          || (PrimFloat.eqb fraction 0.5 && N.odd digit))
         && PrimFloat.ltb 1 (PrimFloat.add fraction delta)
      then carry_over radix written
      else if PrimFloat.leb delta fraction
           then fraction_digits buffer' radix fraction delta written
           else Some written
  end.

Definition toString_radix (radix : N) (value : float) : jsstring :=
  let fraction := value in
  let delta :=
    PrimFloat.mul 0.5 (PrimFloat.sub (PrimFloat.next_up value) value) in
  let delta :=
    if PrimFloat.ltb delta (PrimFloat.next_up 0) then PrimFloat.next_up 0
    else delta in
  if PrimFloat.leb delta fraction then
    match fraction_digits 1100 radix fraction delta [] with
    | Some [] => [radix_char 0]
    | Some (digit :: written) =>
        radix_char 0 :: ch "." :: map radix_char (rev (digit :: written))
    | None => [radix_char 1]
    end
  else [radix_char 0].


(** The draw of the fallback when [Math.random()] returns [value]. *)
Definition Math_random (value : float) : RandomSource :=
  MathRandom (toString_radix 36 value).

End V8.

Export V8.

(** ** JSON values *)

Module Json.

(** A value [JSON.parse] can return, or one the handler builds for
    [JSON.stringify].  A number is an IEEE 754 double.  The members of an
    object are its own properties, one entry per key. *)
#[warnings="-register-all"]
Inductive json : Type :=
| JNull
| JBool (b : bool)
| JNumber (x : float)
| JString (s : jsstring)
| JArray (items : list json)
| JObject (members : list (jsstring * json)).

(** ToBoolean on a Number: [+0], [-0] and [NaN] are falsy. *)
Definition number_truthy (x : float) : bool :=
  negb (PrimFloat.eqb x 0%float) && PrimFloat.eqb x x.

(** ToBoolean *)
Definition json_truthy (v : json) : bool :=
  match v with
  | JNull => false
  | JBool b => b
  | JNumber x => number_truthy x
  | JString s => truthy s
  | JArray _ => true
  | JObject _ => true
  end.

Fixpoint member (key : jsstring) (members : list (jsstring * json))
  : option json :=
  match members with
  | [] => None
  | (k, v) :: members' =>
      if str_eqb k key then Some v else member key members'
  end.

(** [v.key], and [v?.key] when [v] is [null]; [None] is [undefined].  The
    handler reads only names that no array, string, number or boolean has
    ([error], [message], [details], [workflow], [id], ...), so on those the
    result is [undefined]. *)
Definition get (v : json) (key : jsstring) : option json :=
  match v with
  | JObject members => member key members
  | _ => None
  end.

(** [o?.key] on a value that may be [undefined]. *)
Definition get_opt (o : option json) (key : jsstring) : option json :=
  match o with
  | Some v => get v key
  | None => None
  end.

(** [o ?? d]: [d] replaces [undefined] and [null] only. *)
Definition nullish (o : option json) (d : json) : json :=
  match o with
  | None => d
  | Some JNull => d
  | Some v => v
  end.

(** [typeof o === "string"], with the string. *)
Definition typeof_string (o : option json) : option jsstring :=
  match o with
  | Some (JString s) => Some s
  | _ => None
  end.

(** [o && typeof o === "object"] *)
Definition truthy_object (o : option json) : bool :=
  match o with
  | Some (JObject _) => true
  | Some (JArray _) => true
  | _ => false
  end.

(** [key in o], for [o] an object or an array and [key] one of the names
    above. *)
Definition has_key (key : jsstring) (o : option json) : bool :=
  match get_opt o key with
  | Some _ => true
  | None => false
  end.

End Json.

Export Json.

(** ** Headers and Response of the Fetch standard *)

Module Fetch.

Definition Headers : Type := list (jsstring * jsstring).

(** HTTP whitespace: tab, line feed, carriage return, space. *)
Definition is_http_whitespace (c : code_unit) : bool :=
  (c =? 9) || (c =? 10) || (c =? 13) || (c =? 32).

Fixpoint strip_leading (s : jsstring) : jsstring :=
  match s with
  | [] => []
  | c :: s' => if is_http_whitespace c then strip_leading s' else s
  end.

(** Normalizing a header value: HTTP whitespace is removed at both ends. *)
Definition normalize_value (s : jsstring) : jsstring :=
  rev (strip_leading (rev (strip_leading s))).

(** A code unit a header value may hold: a byte other than NUL, line feed
    and carriage return. *)
Definition is_value_unit (c : code_unit) : bool :=
  (c <=? 255) && negb ((c =? 0) || (c =? 10) || (c =? 13)).

(** [headers.append(name, value)] for a valid header name: a TypeError
    ([None]) when the value is no byte string or, once normalized, holds a
    NUL, a line feed or a carriage return. *)
Definition Headers_append (headers : Headers) (name value : jsstring)
  : option Headers :=
  if forallb (fun c => c <=? 255) value then
    let v := normalize_value value in
    if forallb is_value_unit v then Some (headers ++ [(name, v)]) else None
  else None.

(** The values of the entries named [Set-Cookie], as
    [headers.getSetCookie()] gives them; the handler writes the name in
    this one spelling. *)
Definition getSetCookie (headers : Headers) : list jsstring :=
  map snd (filter (fun h => str_eqb (fst h) (lit "Set-Cookie")) headers).

(** A response with a JSON body: [response_body] is the value whose
    [JSON.stringify] text is the body. *)
Record Response : Type := mkResponse {
  response_status : N;
  response_headers : Headers;
  response_body : json
}.

Definition is_null_body_status (status : N) : bool :=
  (status =? 101) || (status =? 103) || (status =? 204) || (status =? 205)
  || (status =? 304).

(** The conversion of a non-negative integer to an [unsigned short], the
    type of [ResponseInit.status] and of [Response.status]. *)
Definition unsigned_short (n : N) : N := n mod 65536.

(** [new Response(JSON.stringify(payload), { status, headers })]: the
    status is converted to an unsigned short; then a RangeError ([None])
    for a status outside 200..599, a TypeError for a null body status, the
    body being a string. *)
Definition new_Response (payload : json) (status : N) (headers : Headers)
  : option Response :=
  let status := unsigned_short status in
  if (200 <=? status) && (status <=? 599)
     && negb (is_null_body_status status)
  then Some {| response_status := status;
               response_headers := headers;
               response_body := payload |}
  else None.

(** What the handler reads of the response of [fetch]; the status of a
    response is an unsigned short; [upstream_json] is [None] when
    [response.json()] rejects. *)
Record UpstreamResponse : Type := mkUpstreamResponse {
  upstream_status : N;
  upstream_status_short : upstream_status < 65536;
  upstream_statusText : jsstring;
  upstream_json : option json
}.

(** [response.ok] *)
Definition upstream_ok (response : UpstreamResponse) : bool :=
  (200 <=? upstream_status response) && (upstream_status response <=? 299).

(** What the handler passes to [fetch], apart from constants. *)
Record UpstreamRequest : Type := mkUpstreamRequest {
  upstream_url : jsstring;
  upstream_authorization : jsstring;
  upstream_body : json
}.

End Fetch.

Export Fetch.

(** ** The rest of the create-session handler *)

Module Handler.

Definition DEFAULT_CHATKIT_BASE : jsstring := lit "https://api.openai.com".

(** What the handler reads of [process.env] (logging apart). *)
Record Process : Type := mkProcess {
  process_env : Env;
  OPENAI_API_KEY : option jsstring;
  CHATKIT_API_BASE : option jsstring
}.

(** The literal [{ "Content-Type": "application/json" }]. *)
Definition json_content_type : Headers :=
  [(lit "Content-Type", lit "application/json")].

Definition error_payload (message : jsstring) : json :=
  JObject [(lit "error", JString message)].

Definition buildJsonResponse (payload : json) (status : N)
  (headers : Headers) (sessionCookie : option jsstring) : option Response :=
  match
    (match sessionCookie with
     | Some cookie =>
         if truthy cookie then Headers_append headers (lit "Set-Cookie") cookie
         else Some headers
     | None => Some headers
     end)
  with
  | Some responseHeaders => new_Response payload status responseHeaders
  | None => None
  end.

Definition methodNotAllowedResponse : option Response :=
  new_Response (error_payload (lit "Method Not Allowed")) 405
    json_content_type.

Definition GET : option Response := methodNotAllowedResponse.

(** The guard of both [return error.message] and
    [return nestedError.message]: [o && typeof o === "object" &&
    "message" in o && typeof o.message === "string"]. *)
Definition object_message (o : option json) : option jsstring :=
  if truthy_object o && has_key (lit "message") o
  then typeof_string (get_opt o (lit "message"))
  else None.

Definition extractUpstreamError (payload : json) : option jsstring :=
  if negb (json_truthy payload) then None
  else
    let error := get payload (lit "error") in
    match typeof_string error with
    | Some s => Some s
    | None =>
    match object_message error with
    | Some s => Some s
    | None =>
    let details := get payload (lit "details") in
    match typeof_string details with
    | Some s => Some s
    | None =>
    match
      (if truthy_object details && has_key (lit "error") details then
         let nestedError := get_opt details (lit "error") in
         match typeof_string nestedError with
         | Some s => Some s
         | None => object_message nestedError
         end
       else None)
    with
    | Some s => Some s
    | None => typeof_string (get payload (lit "message"))
    end
    end
    end
    end.

Section WithPlatform.

(** [WORKFLOW_ID] of [@/lib/config], which is not part of the sources at
    hand: a string constant. *)
Variable WORKFLOW_ID : jsstring.

(** [JSON.parse]: [None] when it throws. *)
Variable JSON_parse : jsstring -> option json.

(** [fetch]: [None] when it rejects. *)
Variable fetch : UpstreamRequest -> option UpstreamResponse.

(** [safeParseJson]; [text] is [None] when [req.text()] rejects. *)
Definition safeParseJson (text : option jsstring) : json :=
  match text with
  | None => JNull
  | Some t =>
      if negb (truthy t) then JNull
      else
        match JSON_parse t with
        | Some parsed => parsed
        | None => JNull
        end
  end.

(** [parsedBody?.workflow?.id ?? parsedBody?.workflowId ?? WORKFLOW_ID] *)
Definition resolveWorkflowId (parsedBody : json) : json :=
  nullish (get_opt (get parsedBody (lit "workflow")) (lit "id"))
    (nullish (get parsedBody (lit "workflowId")) (JString WORKFLOW_ID)).

(** The argument of [fetch]. *)
Definition upstreamRequest (process : Process) (openaiApiKey : jsstring)
  (parsedBody resolvedWorkflowId : json) (userId : jsstring)
  : UpstreamRequest :=
  let apiBase :=
    match CHATKIT_API_BASE process with
    | Some base => base
    | None => DEFAULT_CHATKIT_BASE
    end in
  {| upstream_url := apiBase ++ lit "/v1/chatkit/sessions";
     upstream_authorization := lit "Bearer " ++ openaiApiKey;
     upstream_body :=
       JObject
         [(lit "workflow", JObject [(lit "id", resolvedWorkflowId)]);
          (lit "user", JString userId);
          (lit "chatkit_configuration",
           JObject
             [(lit "file_upload",
               JObject
                 [(lit "enabled",
                   nullish
                     (get_opt
                        (get_opt
                           (get parsedBody (lit "chatkit_configuration"))
                           (lit "file_upload"))
                        (lit "enabled"))
                     (JBool false))])])] |}.

(** What follows [await fetch(...)] inside the [try] block. *)
Definition respondToUpstream (upstreamResponse : UpstreamResponse)
  (sessionCookie : option jsstring) : option Response :=
  let upstreamJson :=
    match upstream_json upstreamResponse with
    | Some parsed => parsed
    | None => JObject []
    end in
  if negb (upstream_ok upstreamResponse) then
    let upstreamError := extractUpstreamError upstreamJson in
    buildJsonResponse
      (JObject
         [(lit "error",
           JString
             match upstreamError with
             | Some message => message
             | None =>
                 lit "Failed to create session: "
                 ++ upstream_statusText upstreamResponse
             end);
          (lit "details", upstreamJson)])
      (upstream_status upstreamResponse) json_content_type sessionCookie
  else
    buildJsonResponse
      (JObject
         [(lit "client_secret",
           nullish (get upstreamJson (lit "client_secret")) JNull);
          (lit "expires_after",
           nullish (get upstreamJson (lit "expires_after")) JNull)])
      200 json_content_type sessionCookie.

(** The [try] block of [POST]: the value of the variable [sessionCookie]
    when the block is left, and the response it returns, [None] when it
    throws. *)
Definition POST_try (process : Process) (request : Request)
  (text : option jsstring) (rnd : RandomSource)
  : option jsstring * option Response :=
  match OPENAI_API_KEY process with
  | None =>
      (None,
       new_Response
         (error_payload (lit "Missing OPENAI_API_KEY environment variable"))
         500 json_content_type)
  | Some openaiApiKey =>
      if negb (truthy openaiApiKey) then
        (None,
         new_Response
           (error_payload
              (lit "Missing OPENAI_API_KEY environment variable"))
           500 json_content_type)
      else
        let parsedBody := safeParseJson text in
        match resolveUserId request (process_env process) rnd with
        | Throw _ => (None, None)
        | Ok resolved =>
            let sessionCookie := sessionCookie resolved in
            let resolvedWorkflowId := resolveWorkflowId parsedBody in
            if negb (json_truthy resolvedWorkflowId) then
              (sessionCookie,
               buildJsonResponse (error_payload (lit "Missing workflow id"))
                 400 json_content_type sessionCookie)
            else
              match
                fetch (upstreamRequest process openaiApiKey parsedBody
                         resolvedWorkflowId (userId resolved))
              with
              | None => (sessionCookie, None)
              | Some upstreamResponse =>
                  (sessionCookie,
                   respondToUpstream upstreamResponse sessionCookie)
              end
        end
  end.

(** [POST]; [None] when the promise it returns rejects. *)
Definition POST (method : jsstring) (process : Process) (request : Request)
  (text : option jsstring) (rnd : RandomSource) : option Response :=
  if negb (str_eqb method (lit "POST")) then methodNotAllowedResponse
  else
    let (sessionCookie, returned) := POST_try process request text rnd in
    match returned with
    | Some response => Some response
    | None =>
        buildJsonResponse (error_payload (lit "Unexpected error")) 500
          json_content_type sessionCookie
    end.

End WithPlatform.

End Handler.

Export Handler.

(** ** Vocabulary for the handler *)

Module HandlerSpec.

(** The member of a JSON value at the end of a path of keys. *)
Fixpoint follow (v : json) (path : list jsstring) : option json :=
  match path with
  | [] => Some v
  | key :: path' =>
      match get v key with
      | Some w => follow w path'
      | None => None
      end
  end.

(** The first of some values that is a string. *)
Fixpoint first_string (candidates : list (option json)) : option jsstring :=
  match candidates with
  | [] => None
  | o :: candidates' =>
      match typeof_string o with
      | Some s => Some s
      | None => first_string candidates'
      end
  end.

(** The places [extractUpstreamError] looks at, in its order. *)
Definition error_paths : list (list jsstring) :=
  [ [lit "error"];
    [lit "error"; lit "message"];
    [lit "details"];
    [lit "details"; lit "error"];
    [lit "details"; lit "error"; lit "message"];
    [lit "message"] ].

(** The statuses [new Response] accepts with a body. *)
Definition constructible_status (status : N) : bool :=
  (200 <=? status) && (status <=? 599) && negb (is_null_body_status status).

(** The cookies a resolution asks the response to set. *)
Definition cookies_of (resolved : Resolved) : list jsstring :=
  match sessionCookie resolved with
  | Some cookie => [cookie]
  | None => []
  end.

(** The headers of every response built after a resolution. *)
Definition headers_after (resolved : Resolved) : Headers :=
  json_content_type
  ++ map (fun cookie => (lit "Set-Cookie", cookie)) (cookies_of resolved).

(** The response the handler ends with when, after a resolution, it
    builds a response of some payload and status: that one, or the one of
    the [catch] block when [new Response] refuses the status. *)
Definition settle (resolved : Resolved) (payload : json) (status : N)
  : Response :=
  if constructible_status status
  then {| response_status := status;
          response_headers := headers_after resolved;
          response_body := payload |}
  else {| response_status := 500;
          response_headers := headers_after resolved;
          response_body := error_payload (lit "Unexpected error") |}.

(** The JSON text of [response.json()], [{}] when it rejects. *)
Definition upstream_payload (response : UpstreamResponse) : json :=
  match upstream_json response with
  | Some parsed => parsed
  | None => JObject []
  end.

End HandlerSpec.

Export HandlerSpec.

(** ** Proof automation *)

Ltac bool_prop :=
  repeat first
    [ rewrite orb_true_iff | rewrite andb_true_iff
    | rewrite orb_false_iff | rewrite andb_false_iff
    | rewrite N.leb_le | rewrite N.eqb_eq | rewrite N.ltb_lt
    | rewrite N.leb_gt | rewrite N.eqb_neq | rewrite N.ltb_ge ].

Ltac bool_prop_in H :=
  repeat first
    [ rewrite orb_true_iff in H | rewrite andb_true_iff in H
    | rewrite orb_false_iff in H | rewrite andb_false_iff in H
    | rewrite N.leb_le in H | rewrite N.eqb_eq in H | rewrite N.ltb_lt in H
    | rewrite N.leb_gt in H | rewrite N.eqb_neq in H | rewrite N.ltb_ge in H ].

(** ** Sample data *)

Definition env_development : Env := {| NODE_ENV := Some (lit "development") |}.
Definition env_production : Env := {| NODE_ENV := Some (lit "production") |}.
Definition sample_uuid : jsstring :=
  lit "123e4567-e89b-42d3-a456-426614174000".
Definition request_with (header : string) : Request :=
  {| headers_get_cookie := Some (lit header) |}.
Definition request_without_cookie : Request :=
  {| headers_get_cookie := None |}.
(** Two neighbouring doubles of [0, 1): 0.123456 and the double just
    below it. *)
Definition sample_double : float := 0x1.f9acffa7eb6bfp-4%float.
Definition sample_double_below : float := 0x1.f9acffa7eb6bep-4%float.
Definition sample_process : Process :=
  {| process_env := env_production;
     OPENAI_API_KEY := Some (lit "sk-test");
     CHATKIT_API_BASE := None |}.
Definition sample_WORKFLOW_ID : jsstring := lit "wf_default".
(** A parser that knows two texts. *)
Definition sample_JSON_parse (text : jsstring) : option json :=
  if str_eqb text (lit "{}") then Some (JObject [])
  else if str_eqb text (lit "{workflow:{id:0}}") then
    Some (JObject [(lit "workflow", JObject [(lit "id", JNumber 0%float)])])
  else None.
(** An upstream that refuses every request with 401. *)
Definition sample_fetch_401 (_ : UpstreamRequest) : option UpstreamResponse :=
  Some {| upstream_status := 401;
          upstream_status_short := eq_refl;
          upstream_statusText := lit "Unauthorized";
          upstream_json :=
            Some (JObject
                    [(lit "error",
                      JObject [(lit "message", JString (lit "Invalid key"))])]) |}.
(** An upstream that accepts every request. *)
Definition sample_fetch_200 (_ : UpstreamRequest) : option UpstreamResponse :=
  Some {| upstream_status := 200;
          upstream_status_short := eq_refl;
          upstream_statusText := lit "OK";
          upstream_json :=
            Some (JObject [(lit "client_secret", JString (lit "cs_1"))]) |}.
(** An upstream that replies 304. *)
Definition sample_fetch_304 (_ : UpstreamRequest) : option UpstreamResponse :=
  Some {| upstream_status := 304;
          upstream_status_short := eq_refl;
          upstream_statusText := lit "Not Modified";
          upstream_json := None |}.
(** A network that fails. *)
Definition sample_fetch_rejects (_ : UpstreamRequest)
  : option UpstreamResponse := None.

(** ** Sample runs *)

Example split_example :
  split (ch ";") (lit "foo=bar; chatkit_session_id=xyz; baz=qux")
  = [lit "foo=bar"; lit " chatkit_session_id=xyz"; lit " baz=qux"].
Proof. reflexivity. Qed.

Example getCookieValue_example :
  getCookieValue (Some (lit "foo=bar; chatkit_session_id=xyz; baz=qux"))
    SESSION_COOKIE_NAME = Some (lit "xyz").
Proof. reflexivity. Qed.

Example encode_example :
  encodeURIComponent (lit "a b;c=d/e") = Ok (lit "a%20b%3Bc%3Dd%2Fe").
Proof. reflexivity. Qed.

Example encode_euro :
  encodeURIComponent [8364; 233; 55357; 56832] = Ok (lit "%E2%82%AC%C3%A9%F0%9F%98%80").
Proof. reflexivity. Qed.

Example serialize_example :
  serializeSessionCookie {| NODE_ENV := Some (lit "production") |} (lit "ab")
  = Ok (lit "chatkit_session_id=ab; Path=/; Max-Age=2592000; HttpOnly; SameSite=Lax; Secure").
Proof. reflexivity. Qed.

Example uuid_example :
  is_uuid (lit "123e4567-e89b-42d3-a456-426614174000") = true.
Proof. reflexivity. Qed.

Example uuid_bad : is_uuid (lit "123e4567-e89b-42d3-a456-42661417400") = false.
Proof. reflexivity. Qed.

(** ** Facts about the string library *)

Lemma str_eqb_eq (a b : jsstring) : str_eqb a b = true <-> a = b.
Proof.
  revert b; induction a as [|x a IH]; intros [|y b]; simpl;
    try (split; [discriminate | congruence]); try tauto.
  rewrite andb_true_iff, N.eqb_eq, IH.
  split; [intros [-> ->]; reflexivity | intros H; inversion H; auto].
Qed.

Lemma str_eqb_refl (a : jsstring) : str_eqb a a = true.
Proof. apply str_eqb_eq; reflexivity. Qed.

Section Splitting.

Variable sep : code_unit.


Lemma split_parts_app (a b : jsstring) :
  ~ In sep a -> split_parts sep (a ++ sep :: b) = (a, split sep b).
Proof.
  unfold split.
  induction a as [|c a IH]; simpl; intros Hn.
  - rewrite N.eqb_refl. destruct (split_parts sep b); reflexivity.
  - rewrite IH by tauto.
    destruct (split_parts sep b) as [p ps].
    destruct (N.eqb_spec c sep) as [->|_]; [tauto | reflexivity].
Qed.

Lemma split_app (a b : jsstring) :
  ~ In sep a -> split sep (a ++ sep :: b) = a :: split sep b.
Proof.
  intros Hn. unfold split at 1. rewrite split_parts_app by assumption.
  reflexivity.
Qed.


(** Splitting on the first separator and splitting on all of them agree:
    the pieces after the first re-join to the text after the first
    separator. *)
Lemma join_split (s : jsstring) : join [sep] (split sep s) = s.
Proof.
  unfold split.
  induction s as [|c s IH]; simpl; [reflexivity|].
  destruct (split_parts sep s) as [p ps].
  destruct (N.eqb_spec c sep) as [->|_].
  - simpl. f_equal. exact IH.
  - destruct ps as [|q ps]; simpl in *; f_equal; exact IH.
Qed.

Lemma split_first_none (s : jsstring) :
  split_first sep s = None -> split_parts sep s = (s, []).
Proof.
  induction s as [|c s IH]; simpl; [reflexivity|].
  destruct (N.eqb_spec c sep) as [->|_]; [discriminate|].
  destruct (split_first sep s) as [[a b]|]; [discriminate|].
  intros _. rewrite IH by reflexivity. reflexivity.
Qed.

Lemma split_first_some (s n v : jsstring) :
  split_first sep s = Some (n, v) ->
  split_parts sep s = (n, split sep v).
Proof.
  revert n; induction s as [|c s IH]; simpl; intros n; [discriminate|].
  destruct (N.eqb_spec c sep) as [->|_].
  - intros H; inversion H; subst. unfold split.
    destruct (split_parts sep v); reflexivity.
  - destruct (split_first sep s) as [[a b]|]; [|discriminate].
    intros H; inversion H; subst.
    rewrite (IH a) by reflexivity. reflexivity.
Qed.

Lemma split_first_app (s n v : jsstring) :
  split_first sep s = Some (n, v) -> s = n ++ sep :: v /\ ~ In sep n.
Proof.
  revert n; induction s as [|c s IH]; simpl; intros n; [discriminate|].
  destruct (N.eqb_spec c sep) as [->|Hc].
  - intros H; inversion H; subst. simpl. tauto.
  - destruct (split_first sep s) as [[a b]|]; [|discriminate].
    intros H; inversion H; subst.
    destruct (IH a eq_refl) as [-> Hn]. simpl. split; [reflexivity|].
    intros [E|E]; [congruence | tauto].
Qed.

Lemma split_first_intro (n v : jsstring) :
  ~ In sep n -> split_first sep (n ++ sep :: v) = Some (n, v).
Proof.
  induction n as [|c n IH]; simpl; intros Hn.
  - rewrite N.eqb_refl. reflexivity.
  - destruct (N.eqb_spec c sep) as [->|_]; [tauto|].
    rewrite IH by tauto. reflexivity.
Qed.

End Splitting.

Lemma trimStart_clean (s : jsstring) :
  Forall (fun c => is_white_space c = false) s -> trimStart s = s.
Proof.
  intros [|c s' Hc _]; simpl; [reflexivity|]. rewrite Hc. reflexivity.
Qed.

Lemma trim_clean (s : jsstring) :
  Forall (fun c => is_white_space c = false) s -> trim s = s.
Proof.
  intros H. unfold trim, trimEnd.
  rewrite (trimStart_clean s H).
  rewrite trimStart_clean by (apply Forall_rev; exact H).
  apply rev_involutive.
Qed.

Lemma trimStart_all_white (s : jsstring) :
  forallb is_white_space s = true -> trimStart s = [].
Proof.
  induction s as [|c s IH]; simpl; [reflexivity|].
  rewrite andb_true_iff. intros [-> H]. auto.
Qed.

Lemma trim_all_white (s : jsstring) :
  forallb is_white_space s = true -> trim s = [].
Proof.
  intros H. unfold trim. rewrite trimStart_all_white by assumption.
  reflexivity.
Qed.

(** ** Facts about [encodeURIComponent] *)

Lemma uri_char_not_white (c : code_unit) :
  is_uri_char c = true -> is_white_space c = false.
Proof.
  unfold is_uri_char, is_unreserved, is_alpha_num, is_white_space.
  intros H. bool_prop_in H. bool_prop. lia.
Qed.

Lemma uri_char_not_delim (c : code_unit) :
  is_uri_char c = true -> c <> ch ";" /\ c <> ch "=".
Proof.
  unfold is_uri_char, is_unreserved, is_alpha_num.
  intros H. bool_prop_in H.
  change (ch ";") with 59. change (ch "=") with 61. lia.
Qed.

Lemma hex_digit_unreserved (n : N) :
  n < 16 -> is_unreserved (hex_digit n) = true.
Proof.
  intros Hn. unfold hex_digit, is_unreserved, is_alpha_num.
  destruct (N.ltb_spec n 10); bool_prop; lia.
Qed.

Lemma percent_uri_chars (octet : N) :
  Forall (fun c => is_uri_char c = true) (percent octet).
Proof.
  unfold percent.
  assert (H16 : forall x, x mod 16 < 16) by (intros; apply N.mod_lt; lia).
  repeat apply Forall_cons; try apply Forall_nil; unfold is_uri_char;
    try reflexivity;
    rewrite hex_digit_unreserved by apply H16; reflexivity.
Qed.

Lemma percent_utf8_uri_chars (cp : N) :
  Forall (fun c => is_uri_char c = true) (percent_utf8 cp).
Proof.
  unfold percent_utf8.
  induction (utf8 cp) as [|b l IH]; [constructor|].
  change (flat_map percent (b :: l)) with (percent b ++ flat_map percent l).
  apply Forall_app. split; [apply percent_uri_chars | exact IH].
Qed.

(** The encoder reads one or two code units at a time, so its properties
    go by induction on a bound of the length. *)
Lemma encodeURIComponent_uri_chars_bounded (n : nat) :
  forall s e, (List.length s <= n)%nat ->
    encodeURIComponent s = Ok e ->
    Forall (fun c => is_uri_char c = true) e.
Proof.
  induction n as [|n IH]; intros s e Hlen.
  - destruct s; simpl in *; [|lia]. intros H; inversion H; constructor.
  - destruct s as [|c s']; simpl in *.
    { intros H; inversion H; constructor. }
    destruct (is_unreserved c) eqn:Hu.
    { destruct (encodeURIComponent s') as [r|] eqn:Hr; simpl; [|discriminate].
      intros H; inversion H; subst. constructor.
      - unfold is_uri_char. rewrite Hu. reflexivity.
      - apply (IH s'); [lia | assumption]. }
    destruct (is_low_surrogate c); [discriminate|].
    destruct (is_high_surrogate c).
    + destruct s' as [|d s'']; [discriminate|].
      destruct (is_low_surrogate d); [|discriminate].
      destruct (encodeURIComponent s'') as [r|] eqn:Hr; simpl; [|discriminate].
      intros H; inversion H; subst. apply Forall_app. split.
      * apply percent_utf8_uri_chars.
      * apply (IH s''); [simpl in Hlen; lia | assumption].
    + destruct (encodeURIComponent s') as [r|] eqn:Hr; simpl; [|discriminate].
      intros H; inversion H; subst. apply Forall_app. split.
      * apply percent_utf8_uri_chars.
      * apply (IH s'); [lia | assumption].
Qed.

Lemma encodeURIComponent_uri_chars (s e : jsstring) :
  encodeURIComponent s = Ok e -> Forall (fun c => is_uri_char c = true) e.
Proof.
  apply (encodeURIComponent_uri_chars_bounded (List.length s)). lia.
Qed.

(** A string of unreserved characters is left unchanged. *)
Lemma encodeURIComponent_unreserved (s : jsstring) :
  forallb is_unreserved s = true -> encodeURIComponent s = Ok s.
Proof.
  induction s as [|c s IH]; simpl; [reflexivity|].
  rewrite andb_true_iff. intros [-> Hs]. rewrite IH by assumption.
  reflexivity.
Qed.

(** ** Facts about the cookie parser *)

Lemma find_cookie_cons (name cookie : jsstring) (cookies : list jsstring) :
  find_cookie name (cookie :: cookies)
  = let (rawName, rest) := split_parts (ch "=") cookie in
    if negb (truthy rawName) || Nat.eqb (List.length rest) 0 then
      find_cookie name cookies
    else if str_eqb (trim rawName) name then
      Some (trim (join (lit "=") rest))
    else find_cookie name cookies.
Proof. reflexivity. Qed.

Lemma lookup_pair_cons (name segment : jsstring) (segments : list jsstring) :
  lookup_pair name (segment :: segments)
  = match split_first (ch "=") segment with
    | Some (n, v) =>
        if str_eqb (trim n) name then Some (trim v)
        else lookup_pair name segments
    | None => lookup_pair name segments
    end.
Proof. reflexivity. Qed.

(** One step of the loop on a segment with an [=]. *)
Lemma find_cookie_pair (name cookie n v : jsstring)
    (cookies : list jsstring) :
  split_first (ch "=") cookie = Some (n, v) ->
  find_cookie name (cookie :: cookies)
  = if negb (truthy n) then find_cookie name cookies
    else if str_eqb (trim n) name then Some (trim v)
    else find_cookie name cookies.
Proof.
  intros Hsf. rewrite find_cookie_cons, (split_first_some _ _ _ _ Hsf).
  assert (Hlen : Nat.eqb (List.length (split (ch "=") v)) 0 = false).
  { unfold split. destruct (split_parts (ch "=") v). reflexivity. }
  rewrite Hlen, orb_false_r.
  change (lit "=") with [ch "="]. rewrite join_split. reflexivity.
Qed.

(** One step of the loop on a segment without [=]. *)
Lemma find_cookie_no_pair (name cookie : jsstring)
    (cookies : list jsstring) :
  split_first (ch "=") cookie = None ->
  find_cookie name (cookie :: cookies) = find_cookie name cookies.
Proof.
  intros Hsf. rewrite find_cookie_cons, (split_first_none _ _ Hsf).
  change (Nat.eqb (List.length (@nil jsstring)) 0) with true.
  rewrite orb_true_r. reflexivity.
Qed.

Lemma find_cookie_lookup_pair (name : jsstring) (cookies : list jsstring) :
  name <> [] -> find_cookie name cookies = lookup_pair name cookies.
Proof.
  intros Hname.
  induction cookies as [|cookie cookies IH]; [reflexivity|].
  rewrite lookup_pair_cons.
  destruct (split_first (ch "=") cookie) as [[n v]|] eqn:Hsf.
  - rewrite (find_cookie_pair _ _ _ _ _ Hsf).
    destruct n as [|c n].
    + change (negb (truthy [])) with true. cbv iota. rewrite IH.
      destruct (str_eqb (trim []) name) eqn:E; [|reflexivity].
      apply str_eqb_eq in E. exfalso. apply Hname. symmetry. exact E.
    + change (negb (truthy (c :: n))) with false. cbv iota.
      rewrite IH. reflexivity.
  - rewrite (find_cookie_no_pair _ _ _ Hsf). exact IH.
Qed.

Lemma getCookieValue_refines (header : option jsstring) (name : jsstring) :
  name <> [] -> getCookieValue header name = getCookieValue_spec header name.
Proof.
  intros Hname. destruct header as [[|c h]|]; try reflexivity.
  unfold getCookieValue, getCookieValue_spec.
  change (negb (truthy (c :: h))) with false. cbv iota.
  apply find_cookie_lookup_pair, Hname.
Qed.

Lemma SESSION_COOKIE_NAME_nonempty : SESSION_COOKIE_NAME <> [].
Proof. discriminate. Qed.

Lemma lookup_pair_first (name : jsstring) (pre post : list jsstring)
    (segment v : jsstring) :
  no_pair_named name pre ->
  pair_named name segment v ->
  lookup_pair name (pre ++ segment :: post) = Some (trim v).
Proof.
  intros Hpre [n [Hsf Hn]].
  induction Hpre as [|s pre Hs _ IH]; cbn [app]; rewrite lookup_pair_cons.
  - rewrite Hsf. subst name. rewrite str_eqb_refl. reflexivity.
  - destruct (split_first (ch "=") s) as [[m w]|] eqn:Hm; [|exact IH].
    destruct (str_eqb (trim m) name) eqn:E; [|exact IH].
    apply str_eqb_eq in E. exfalso. apply (Hs w). exists m. auto.
Qed.

Lemma lookup_pair_absent (name : jsstring) (segments : list jsstring) :
  no_pair_named name segments ->
  lookup_pair name segments = None.
Proof.
  induction 1 as [|s segments Hs _ IH]; [reflexivity|].
  rewrite lookup_pair_cons.
  destruct (split_first (ch "=") s) as [[m w]|] eqn:Hm; [|exact IH].
  destruct (str_eqb (trim m) name) eqn:E; [|exact IH].
  apply str_eqb_eq in E. exfalso. apply (Hs w). exists m. auto.
Qed.

(** Segments without [=] or with an empty name do not take part. *)
Lemma find_cookie_skips_malformed (name : jsstring)
    (cookies : list jsstring) :
  find_cookie name (filter well_formed_pair cookies)
  = find_cookie name cookies.
Proof.
  induction cookies as [|cookie cookies IH]; [reflexivity|].
  cbn [filter]. unfold well_formed_pair at 1.
  destruct (split_first (ch "=") cookie) as [[n v]|] eqn:Hsf.
  - rewrite (find_cookie_pair _ _ _ _ cookies Hsf).
    destruct n as [|c n].
    + exact IH.
    + cbn [truthy]. rewrite (find_cookie_pair _ _ _ _ _ Hsf).
      cbn [truthy negb]. rewrite IH. reflexivity.
  - rewrite (find_cookie_no_pair _ _ _ Hsf). exact IH.
Qed.

(** ** Facts about the serializer *)

Lemma serialize_wire_format (env : Env) (value : jsstring) :
  serializeSessionCookie env value
  = let! encoded := encodeURIComponent value in
    Ok (wire_format (is_production env) encoded).
Proof.
  unfold serializeSessionCookie, cookie_attributes, wire_format.
  destruct (encodeURIComponent value) as [enc|e]; [|reflexivity].
  unfold bind. f_equal.
  destruct (is_production env); cbn [join app];
    rewrite <- !app_assoc; reflexivity.
Qed.

Lemma wire_format_split (production : bool) (encoded : jsstring) :
  ~ In (ch ";") encoded ->
  split (ch ";") (wire_format production encoded)
  = (lit "chatkit_session_id=" ++ encoded)
    :: [lit " Path=/"; lit " Max-Age=2592000"; lit " HttpOnly";
        lit " SameSite=Lax"]
    ++ (if production then [lit " Secure"] else []).
Proof.
  intros Hsemi. unfold wire_format.
  assert (Hfirst : ~ In (ch ";") (lit "chatkit_session_id=" ++ encoded)).
  { rewrite in_app_iff. intros [H|H]; [|tauto].
    vm_compute in H. repeat (destruct H as [H|H]; [discriminate|]).
    exact H. }
  rewrite app_assoc.
  change (lit "; Path=/; Max-Age=2592000; HttpOnly; SameSite=Lax"
          ++ (if production then lit "; Secure" else []))
    with (ch ";" ::
          (lit " Path=/; Max-Age=2592000; HttpOnly; SameSite=Lax"
           ++ (if production then lit "; Secure" else []))).
  rewrite split_app by exact Hfirst.
  f_equal. destruct production; reflexivity.
Qed.

Lemma parse_wire_format (production : bool) (encoded : jsstring) :
  Forall (fun c => is_uri_char c = true) encoded ->
  getCookieValue (Some (wire_format production encoded)) SESSION_COOKIE_NAME
  = Some encoded.
Proof.
  intros Huri.
  assert (Hd : forall c, In c encoded -> c <> ch ";" /\ c <> ch "=").
  { intros c Hc. apply uri_char_not_delim.
    rewrite Forall_forall in Huri. auto. }
  assert (Hsemi : ~ In (ch ";") encoded) by (intros H; apply Hd in H; tauto).
  assert (Heq : ~ In (ch "=") encoded) by (intros H; apply Hd in H; tauto).
  unfold getCookieValue.
  change (negb (truthy (wire_format production encoded))) with false.
  cbv iota. rewrite wire_format_split by exact Hsemi.
  cbn [app].
  rewrite (find_cookie_pair _ _ SESSION_COOKIE_NAME encoded).
  - change (negb (truthy SESSION_COOKIE_NAME)) with false.
    change (str_eqb (trim SESSION_COOKIE_NAME) SESSION_COOKIE_NAME) with true.
    cbv iota. f_equal. apply trim_clean.
    rewrite Forall_forall in *. intros c Hc.
    apply uri_char_not_white; auto.
  - change (lit "chatkit_session_id=" ++ encoded)
      with (SESSION_COOKIE_NAME ++ ch "=" :: encoded).
    apply split_first_intro.
    intros H. vm_compute in H.
    repeat (destruct H as [H|H]; [discriminate|]). exact H.
Qed.

Lemma attributes_of_wire_format (production : bool) (encoded : jsstring) :
  Forall (fun c => is_uri_char c = true) encoded ->
  attributes_of (wire_format production encoded)
  = [lit "chatkit_session_id=" ++ encoded; lit "Path=/";
     lit "Max-Age=2592000"; lit "HttpOnly"; lit "SameSite=Lax"]
    ++ (if production then [lit "Secure"] else []).
Proof.
  intros Huri. unfold attributes_of.
  rewrite wire_format_split.
  - cbn [map app]. f_equal.
    + apply trim_clean, Forall_app. split.
      * repeat constructor.
      * rewrite Forall_forall in *. intros c Hc.
        apply uri_char_not_white; auto.
    + destruct production; reflexivity.
  - intros H. rewrite Forall_forall in Huri.
    apply Huri, uri_char_not_delim in H. tauto.
Qed.

(** ** Facts about the random source *)

Lemma forallb_join (P : code_unit -> bool) (sep : code_unit)
    (l : list jsstring) :
  P sep = true -> forallb (forallb P) l = true ->
  forallb P (join [sep] l) = true.
Proof.
  intros Hsep. induction l as [|x l IH]; [reflexivity|].
  cbn [forallb join]. rewrite andb_true_iff. intros [Hx Hl].
  destruct l as [|y l]; [exact Hx|].
  rewrite forallb_app, Hx. cbn [app forallb]. rewrite Hsep.
  apply IH, Hl.
Qed.

Lemma forallb_weaken {A : Type} (P Q : A -> bool) (l : list A) :
  (forall x, P x = true -> Q x = true) ->
  forallb P l = true -> forallb Q l = true.
Proof.
  intros HPQ. rewrite !forallb_forall. auto.
Qed.

Lemma lower_hex_unreserved (c : code_unit) :
  is_lower_hex c = true -> is_unreserved c = true.
Proof.
  unfold is_lower_hex, is_unreserved, is_alpha_num.
  intros H. bool_prop_in H. bool_prop. lia.
Qed.

Lemma base36_digit_unreserved (c : code_unit) :
  is_base36_digit c = true -> is_unreserved c = true.
Proof.
  unfold is_base36_digit, is_unreserved, is_alpha_num.
  intros H. bool_prop_in H. bool_prop. lia.
Qed.


Lemma uuid_unreserved (u : jsstring) :
  is_uuid u = true -> forallb is_unreserved u = true.
Proof.
  unfold is_uuid. rewrite andb_true_iff. intros [Hhex _].
  rewrite <- (join_split (ch "-") u).
  apply forallb_join; [reflexivity|].
  revert Hhex. apply forallb_weaken. intros g.
  apply forallb_weaken, lower_hex_unreserved.
Qed.


Lemma base36_fraction_inv (s : jsstring) :
  is_base36_fraction s = true ->
  s = lit "0"
  \/ exists d ds, s = lit "0." ++ d :: ds
                  /\ forallb is_base36_digit (d :: ds) = true.
Proof.
  destruct s as [|a [|b ds]]; cbn [is_base36_fraction]; [discriminate| |].
  - rewrite andb_true_r, N.eqb_eq. intros ->. left. reflexivity.
  - rewrite !andb_true_iff, !N.eqb_eq. intros [-> [[-> Hne] Hds]].
    destruct ds as [|d ds]; [discriminate|].
    right. exists d, ds. split; [reflexivity | exact Hds].
Qed.

Lemma generate_unreserved (rnd : RandomSource) :
  valid_draw rnd = true -> forallb is_unreserved (generate rnd) = true.
Proof.
  destruct rnd as [u|s]; cbn [valid_draw generate].
  - apply uuid_unreserved.
  - intros H. apply base36_fraction_inv in H.
    destruct H as [->|[d [ds [-> H]]]]; [reflexivity|].
    change (slice 2 (lit "0." ++ d :: ds)) with (d :: ds).
    revert H. apply forallb_weaken, base36_digit_unreserved.
Qed.

Lemma generate_encodes_to_itself (rnd : RandomSource) :
  valid_draw rnd = true ->
  encodeURIComponent (generate rnd) = Ok (generate rnd).
Proof.
  intros H. apply encodeURIComponent_unreserved, generate_unreserved, H.
Qed.


(** ** Facts about the resolver *)

Lemma resolve_reuse (request : Request) (env : Env) (rnd : RandomSource)
    (e : jsstring) :
  getCookieValue (headers_get_cookie request) SESSION_COOKIE_NAME = Some e ->
  e <> [] ->
  resolveUserId request env rnd
  = Ok {| userId := e; sessionCookie := None |}.
Proof.
  intros H Hne. unfold resolveUserId. rewrite H.
  destruct e; [congruence | reflexivity].
Qed.

Lemma resolve_mint (request : Request) (env : Env) (rnd : RandomSource) :
  truthy_opt (getCookieValue (headers_get_cookie request)
                SESSION_COOKIE_NAME) = false ->
  resolveUserId request env rnd
  = let! encoded := encodeURIComponent (generate rnd) in
    Ok {| userId := generate rnd;
          sessionCookie :=
            Some (wire_format (is_production env) encoded) |}.
Proof.
  intros H. unfold resolveUserId.
  assert (E : (let! cookie := serializeSessionCookie env (generate rnd) in
               Ok {| userId := generate rnd; sessionCookie := Some cookie |})
              = (let! encoded := encodeURIComponent (generate rnd) in
                 Ok {| userId := generate rnd;
                       sessionCookie :=
                         Some (wire_format (is_production env) encoded) |})).
  { rewrite serialize_wire_format.
    destruct (encodeURIComponent (generate rnd)); reflexivity. }
  destruct (getCookieValue (headers_get_cookie request) SESSION_COOKIE_NAME)
    as [[|c e]|]; cbn [truthy_opt truthy] in H; try discriminate; exact E.
Qed.

(** The two branches of the resolver. *)
Lemma resolve_cases (request : Request) (env : Env) (rnd : RandomSource)
    (r : Resolved) :
  resolveUserId request env rnd = Ok r ->
  (getCookieValue (headers_get_cookie request) SESSION_COOKIE_NAME
     = Some (userId r)
   /\ userId r <> [] /\ sessionCookie r = None)
  \/ (truthy_opt (getCookieValue (headers_get_cookie request)
                    SESSION_COOKIE_NAME) = false
      /\ userId r = generate rnd
      /\ exists encoded,
           encodeURIComponent (userId r) = Ok encoded
           /\ sessionCookie r
              = Some (wire_format (is_production env) encoded)).
Proof.
  destruct (truthy_opt (getCookieValue (headers_get_cookie request)
                          SESSION_COOKIE_NAME)) eqn:Ht.
  - destruct (getCookieValue (headers_get_cookie request)
                SESSION_COOKIE_NAME) as [e|] eqn:He; [|discriminate].
    assert (Hne : e <> []) by (destruct e; [discriminate | discriminate]).
    rewrite (resolve_reuse _ _ _ _ He Hne).
    intros H; inversion H; subst. left. auto.
  - rewrite (resolve_mint _ _ _ Ht).
    destruct (encodeURIComponent (generate rnd)) as [enc|] eqn:Henc;
      [|discriminate].
    intros H; inversion H; subst. right. cbn [userId sessionCookie].
    split; [reflexivity|]. split; [reflexivity|].
    exists enc. auto.
Qed.

(** ** The parser against the specification *)

Lemma getCookieValue_first_pair (header : jsstring)
    (pre post : list jsstring) (segment v : jsstring) :
  split (ch ";") header = pre ++ segment :: post ->
  no_pair_named SESSION_COOKIE_NAME pre ->
  pair_named SESSION_COOKIE_NAME segment v ->
  getCookieValue (Some header) SESSION_COOKIE_NAME = Some (trim v).
Proof.
  intros Hsplit Hpre Hpair.
  rewrite getCookieValue_refines by apply SESSION_COOKIE_NAME_nonempty.
  unfold getCookieValue_spec. rewrite Hsplit.
  apply lookup_pair_first; assumption.
Qed.

Lemma getCookieValue_absent (header : option jsstring) :
  (forall h, header = Some h ->
     no_pair_named SESSION_COOKIE_NAME (split (ch ";") h)) ->
  getCookieValue header SESSION_COOKIE_NAME = None.
Proof.
  intros H.
  rewrite getCookieValue_refines by apply SESSION_COOKIE_NAME_nonempty.
  destruct header as [h|]; [|reflexivity].
  apply lookup_pair_absent, H. reflexivity.
Qed.

Lemma no_pair_without_equals (name segment : jsstring) :
  split_first (ch "=") segment = None ->
  forall w, ~ pair_named name segment w.
Proof.
  intros Hnone w [n [Hsf _]]. congruence.
Qed.

Lemma no_pair_other_name (name segment n v : jsstring) :
  split_first (ch "=") segment = Some (n, v) ->
  trim n <> name ->
  forall w, ~ pair_named name segment w.
Proof.
  intros Hsf Hn w [m [Hm Hname]].
  rewrite Hsf in Hm. inversion Hm; subst. auto.
Qed.

(** ** C1: an identifier found in the cookie is reused *)

(** C1, as stated, fails: the header [chatkit_session_id=] contains a pair
    named [chatkit_session_id], yet the resolver does not return its value
    with a null cookie; it mints an identifier and emits a cookie. *)
Lemma C1_empty_value_not_reused :
  ~ (forall (header segment v : jsstring) (env : Env) (rnd : RandomSource),
       In segment (split (ch ";") header) ->
       pair_named SESSION_COOKIE_NAME segment v ->
       exists r,
         resolveUserId {| headers_get_cookie := Some header |} env rnd = Ok r
         /\ userId r = v /\ sessionCookie r = None).
Proof.
  intros H.
  destruct (H (lit "chatkit_session_id=") (lit "chatkit_session_id=") []
              env_development (CryptoRandomUUID sample_uuid))
    as [r [Hr [_ Hnone]]].
  - left. reflexivity.
  - exists SESSION_COOKIE_NAME. split; reflexivity.
  - vm_compute in Hr. inversion Hr; subst. discriminate.
Qed.

(** C1, amended: for every Cookie header whose first pair named
    [chatkit_session_id] (the name compared after trimming, case-sensitive)
    has a value that is not empty once trimmed, [resolveUserId] returns that
    value, trimmed and otherwise unmodified (no URL-decoding), as [userId],
    and [sessionCookie = null]. *)
Theorem C1_first_named_pair_reused
    (header : jsstring) (pre post : list jsstring) (segment v : jsstring)
    (env : Env) (rnd : RandomSource) :
  split (ch ";") header = pre ++ segment :: post ->
  no_pair_named SESSION_COOKIE_NAME pre ->
  pair_named SESSION_COOKIE_NAME segment v ->
  trim v <> [] ->
  resolveUserId {| headers_get_cookie := Some header |} env rnd
  = Ok {| userId := trim v; sessionCookie := None |}.
Proof.
  intros Hsplit Hpre Hpair Hne.
  apply resolve_reuse; [|exact Hne].
  apply (getCookieValue_first_pair header pre post segment v); assumption.
Qed.

(** The header [foo=bar; chatkit_session_id=xyz; baz=qux] yields
    [userId = "xyz"] and no new cookie. *)
Lemma C1_first_named_pair_reused_witness :
  resolveUserId (request_with "foo=bar; chatkit_session_id=xyz; baz=qux")
    env_production (CryptoRandomUUID sample_uuid)
  = Ok {| userId := lit "xyz"; sessionCookie := None |}.
Proof.
  apply (C1_first_named_pair_reused
           (lit "foo=bar; chatkit_session_id=xyz; baz=qux")
           [lit "foo=bar"] [lit " baz=qux"]
           (lit " chatkit_session_id=xyz") (lit "xyz")).
  - reflexivity.
  - constructor; [|constructor].
    apply (no_pair_other_name _ _ (lit "foo") (lit "bar")).
    + reflexivity.
    + vm_compute. discriminate.
  - exists (lit " chatkit_session_id"). split; reflexivity.
  - vm_compute. discriminate.
Defined.

(** The value is not URL-decoded. *)
Example reuse_keeps_percent_escapes :
  resolveUserId (request_with "chatkit_session_id=a%20b")
    env_development (MathRandom (lit "0.4fzyo82mvyr"))
  = Ok {| userId := lit "a%20b"; sessionCookie := None |}.
Proof. reflexivity. Qed.

(** ** C10: an empty cookie value is not an identity *)

(** C10: when the first pair named [chatkit_session_id] of the header has
    an empty or whitespace-only value, the resolver takes the generation
    branch: the identifier is the generated one, not the value of the
    cookie, and a cookie carrying it is emitted. *)
Theorem C10_blank_value_treated_as_absent
    (header : jsstring) (pre post : list jsstring) (segment v : jsstring)
    (env : Env) (rnd : RandomSource) :
  split (ch ";") header = pre ++ segment :: post ->
  no_pair_named SESSION_COOKIE_NAME pre ->
  pair_named SESSION_COOKIE_NAME segment v ->
  forallb is_white_space v = true ->
  valid_draw rnd = true ->
  origin {| headers_get_cookie := Some header |} = Generated
  /\ resolveUserId {| headers_get_cookie := Some header |} env rnd
     = Ok {| userId := generate rnd;
             sessionCookie :=
               Some (wire_format (is_production env) (generate rnd)) |}.
Proof.
  intros Hsplit Hpre Hpair Hblank Hvalid.
  assert (Hget : getCookieValue (Some header) SESSION_COOKIE_NAME = Some []).
  { rewrite (getCookieValue_first_pair header pre post segment v)
      by assumption.
    rewrite trim_all_white by assumption. reflexivity. }
  split.
  - unfold origin. cbn [headers_get_cookie]. rewrite Hget. reflexivity.
  - rewrite resolve_mint.
    + rewrite generate_encodes_to_itself by assumption. reflexivity.
    + cbn [headers_get_cookie]. rewrite Hget. reflexivity.
Qed.

Lemma C10_blank_value_treated_as_absent_witness :
  origin (request_with "chatkit_session_id=") = Generated
  /\ resolveUserId (request_with "chatkit_session_id=") env_development
       (CryptoRandomUUID sample_uuid)
     = Ok {| userId := sample_uuid;
             sessionCookie := Some (wire_format false sample_uuid) |}.
Proof.
  apply (C10_blank_value_treated_as_absent
           (lit "chatkit_session_id=") [] []
           (lit "chatkit_session_id=") []).
  - reflexivity.
  - constructor.
  - exists SESSION_COOKIE_NAME. split; reflexivity.
  - reflexivity.
  - reflexivity.
Defined.

Example whitespace_only_value_mints :
  resolveUserId (request_with "a=1; chatkit_session_id=  ; b=2")
    env_production (CryptoRandomUUID sample_uuid)
  = Ok {| userId := sample_uuid;
          sessionCookie := Some (wire_format true sample_uuid) |}.
Proof. reflexivity. Qed.

(** ** C5: the parsing algorithm *)

(** C5: [getCookieValue], with the fixed cookie name, computes what the
    algorithm of the specification computes: split the header on [;], split
    each segment on its first [=] only, trim, compare the name exactly and
    case-sensitively, return the value of the first pair that matches.  So
    [chatkit_session_id=a=b] gives [a=b], [CHATKIT_SESSION_ID=abc] does not
    match, and of several matching pairs the first wins. *)
Theorem C5_getCookieValue_is_the_specified_algorithm :
  (forall header : option jsstring,
     getCookieValue header SESSION_COOKIE_NAME
     = getCookieValue_spec header SESSION_COOKIE_NAME)
  /\ getCookieValue (Some (lit "chatkit_session_id=a=b")) SESSION_COOKIE_NAME
     = Some (lit "a=b")
  /\ getCookieValue (Some (lit "CHATKIT_SESSION_ID=abc")) SESSION_COOKIE_NAME
     = None
  /\ getCookieValue
       (Some (lit "chatkit_session_id=first; chatkit_session_id=second"))
       SESSION_COOKIE_NAME
     = Some (lit "first").
Proof.
  split; [|repeat split; reflexivity].
  intros header. apply getCookieValue_refines, SESSION_COOKIE_NAME_nonempty.
Qed.

(** ** C4: malformed headers *)

(** C4: for every Cookie header, absent, empty or malformed, and every
    draw of the random source within the contract of the platform,
    [resolveUserId] returns normally; segments without [=] or with an empty
    name are skipped by the parser; and when no pair named
    [chatkit_session_id] exists the resolver mints a new identity. *)
Theorem C4_resolver_total_on_malformed_headers
    (header : option jsstring) (env : Env) (rnd : RandomSource) :
  valid_draw rnd = true ->
  (exists r, resolveUserId {| headers_get_cookie := header |} env rnd = Ok r)
  /\ (forall h, header = Some h ->
        getCookieValue header SESSION_COOKIE_NAME
        = find_cookie SESSION_COOKIE_NAME
            (filter well_formed_pair (split (ch ";") h)))
  /\ ((forall h, header = Some h ->
         no_pair_named SESSION_COOKIE_NAME (split (ch ";") h)) ->
      resolveUserId {| headers_get_cookie := header |} env rnd
      = Ok {| userId := generate rnd;
              sessionCookie :=
                Some (wire_format (is_production env) (generate rnd)) |}).
Proof.
  intros Hvalid.
  pose proof (generate_encodes_to_itself rnd Hvalid) as Henc.
  repeat split.
  - destruct (truthy_opt (getCookieValue header SESSION_COOKIE_NAME)) eqn:Ht.
    + destruct (getCookieValue header SESSION_COOKIE_NAME) as [e|] eqn:He;
        [|discriminate].
      exists {| userId := e; sessionCookie := None |}.
      apply resolve_reuse; [exact He|]. destruct e; discriminate.
    + eexists. rewrite resolve_mint by exact Ht. rewrite Henc. reflexivity.
  - intros h ->. rewrite find_cookie_skips_malformed.
    destruct h as [|c h]; reflexivity.
  - intros Hnone. rewrite resolve_mint.
    + rewrite Henc. reflexivity.
    + cbn [headers_get_cookie].
      rewrite getCookieValue_absent by exact Hnone. reflexivity.
Qed.

(** The header [chatkit_session_id], without [=], falls back to
    generation. *)
Lemma C4_resolver_total_on_malformed_headers_witness :
  resolveUserId (request_with "chatkit_session_id") env_development
    (CryptoRandomUUID sample_uuid)
  = Ok {| userId := sample_uuid;
          sessionCookie := Some (wire_format false sample_uuid) |}.
Proof.
  apply (C4_resolver_total_on_malformed_headers
           (Some (lit "chatkit_session_id")) env_development
           (CryptoRandomUUID sample_uuid)).
  - reflexivity.
  - intros h Hh. inversion Hh; subst h.
    constructor; [|constructor].
    apply no_pair_without_equals. reflexivity.
Defined.

Example malformed_segments_are_skipped :
  getCookieValue (Some (lit ";; =x; novalue; chatkit_session_id=ok"))
    SESSION_COOKIE_NAME = Some (lit "ok").
Proof. reflexivity. Qed.

(** ** C2: generation when there is no cookie *)

(** Outside one draw, generation gives a non-empty identifier and a cookie
    with the four fixed attributes. *)
Lemma mint_gives_identifier_and_cookie (request : Request) (env : Env)
    (rnd : RandomSource) :
  origin request = Generated ->
  valid_draw rnd = true ->
  rnd <> MathRandom (lit "0") ->
  exists c,
    resolveUserId request env rnd
    = Ok {| userId := generate rnd; sessionCookie := Some c |}
    /\ generate rnd <> []
    /\ includes c (lit "Path=/") /\ includes c (lit "HttpOnly")
    /\ includes c (lit "SameSite=Lax") /\ includes c (lit "Max-Age=2592000").
Proof.
  intros Horigin Hvalid Hzero.
  exists (wire_format (is_production env) (generate rnd)).
  split; [|split].
  - unfold origin in Horigin. rewrite resolve_mint.
    + rewrite generate_encodes_to_itself by assumption. reflexivity.
    + destruct (truthy_opt _); [discriminate | reflexivity].
  - destruct rnd as [u|s]; cbn [valid_draw generate] in *.
    + intros ->. discriminate.
    + apply base36_fraction_inv in Hvalid.
      destruct Hvalid as [->|[d [ds [-> _]]]]; [congruence | discriminate].
  - unfold wire_format. set (g := generate rnd).
    set (tail := if is_production env then lit "; Secure" else []).
    repeat split.
    + exists (lit "chatkit_session_id=" ++ g ++ lit "; "),
        (lit "; Max-Age=2592000; HttpOnly; SameSite=Lax" ++ tail).
      rewrite <- !app_assoc. reflexivity.
    + exists (lit "chatkit_session_id=" ++ g
              ++ lit "; Path=/; Max-Age=2592000; "),
        (lit "; SameSite=Lax" ++ tail).
      rewrite <- !app_assoc. reflexivity.
    + exists (lit "chatkit_session_id=" ++ g
              ++ lit "; Path=/; Max-Age=2592000; HttpOnly; "), tail.
      rewrite <- !app_assoc. reflexivity.
    + exists (lit "chatkit_session_id=" ++ g ++ lit "; Path=/; "),
        (lit "; HttpOnly; SameSite=Lax" ++ tail).
      rewrite <- !app_assoc. reflexivity.
Qed.

(** C2 fails on the code at one draw: without a cookie, with
    [crypto.randomUUID] unavailable and [Math.random()] returning 0, so that
    [Math.random().toString(36)] is ["0"] and [.slice(2)] leaves nothing,
    the generated [userId] is the empty string, and the emitted cookie
    carries an empty value. *)
Theorem C2_math_random_zero_mints_empty_identifier :
  valid_draw (MathRandom (lit "0")) = true
  /\ resolveUserId request_without_cookie env_development
       (MathRandom (lit "0"))
     = Ok {| userId := [];
             sessionCookie :=
               Some (lit "chatkit_session_id=; Path=/; Max-Age=2592000; HttpOnly; SameSite=Lax") |}.
Proof. split; reflexivity. Qed.

(** ** C3: the wire format of the emitted cookie *)

(** C3: whenever [resolveUserId] returns a cookie, it was minted for the
    returned identifier and is exactly [chatkit_session_id=] followed by
    [encodeURIComponent] of the identifier and by
    [; Path=/; Max-Age=2592000; HttpOnly; SameSite=Lax], with [; Secure] at
    the end exactly in production: the attributes in this order, joined by
    a semicolon and a space. *)
Theorem C3_emitted_cookie_wire_format
    (request : Request) (env : Env) (rnd : RandomSource) (r : Resolved)
    (c : jsstring) :
  resolveUserId request env rnd = Ok r ->
  sessionCookie r = Some c ->
  userId r = generate rnd
  /\ exists encoded,
       encodeURIComponent (userId r) = Ok encoded
       /\ c = lit "chatkit_session_id=" ++ encoded
              ++ lit "; Path=/; Max-Age=2592000; HttpOnly; SameSite=Lax"
              ++ (if is_production env then lit "; Secure" else [])
       /\ c = join (lit "; ")
                ([lit "chatkit_session_id=" ++ encoded; lit "Path=/";
                  lit "Max-Age=2592000"; lit "HttpOnly"; lit "SameSite=Lax"]
                 ++ (if is_production env then [lit "Secure"] else [])).
Proof.
  intros Hr Hc.
  destruct (resolve_cases _ _ _ _ Hr)
    as [[_ [_ Hnone]]|[_ [Hid [enc [Henc Hsome]]]]]; [congruence|].
  split; [exact Hid|]. exists enc. split; [exact Henc|].
  rewrite Hsome in Hc. inversion Hc; subst c.
  split; [reflexivity|].
  unfold wire_format. destruct (is_production env); cbn [join app];
    rewrite <- ?app_assoc; reflexivity.
Qed.

Lemma C3_emitted_cookie_wire_format_witness :
  sample_uuid = generate (CryptoRandomUUID sample_uuid)
  /\ exists encoded,
       encodeURIComponent sample_uuid = Ok encoded
       /\ lit "chatkit_session_id=123e4567-e89b-42d3-a456-426614174000; Path=/; Max-Age=2592000; HttpOnly; SameSite=Lax; Secure"
          = lit "chatkit_session_id=" ++ encoded
            ++ lit "; Path=/; Max-Age=2592000; HttpOnly; SameSite=Lax"
            ++ (if is_production env_production then lit "; Secure" else [])
       /\ lit "chatkit_session_id=123e4567-e89b-42d3-a456-426614174000; Path=/; Max-Age=2592000; HttpOnly; SameSite=Lax; Secure"
          = join (lit "; ")
              ([lit "chatkit_session_id=" ++ encoded; lit "Path=/";
                lit "Max-Age=2592000"; lit "HttpOnly"; lit "SameSite=Lax"]
               ++ (if is_production env_production
                   then [lit "Secure"] else [])).
Proof.
  apply (C3_emitted_cookie_wire_format request_without_cookie env_production
           (CryptoRandomUUID sample_uuid)
           {| userId := sample_uuid;
              sessionCookie :=
                Some (lit "chatkit_session_id=123e4567-e89b-42d3-a456-426614174000; Path=/; Max-Age=2592000; HttpOnly; SameSite=Lax; Secure") |}).
  - reflexivity.
  - reflexivity.
Defined.

Example max_age_is_thirty_days :
  number_toString SESSION_COOKIE_MAX_AGE = lit "2592000".
Proof. reflexivity. Qed.

(** ** C6: the Secure attribute *)

Lemma serialize_inv (env : Env) (value c : jsstring) :
  serializeSessionCookie env value = Ok c ->
  exists encoded,
    encodeURIComponent value = Ok encoded
    /\ Forall (fun x => is_uri_char x = true) encoded
    /\ c = wire_format (is_production env) encoded.
Proof.
  rewrite serialize_wire_format.
  destruct (encodeURIComponent value) as [enc|] eqn:Henc; [|discriminate].
  intros H; inversion H; subst. exists enc.
  split; [reflexivity|]. split; [|reflexivity].
  apply (encodeURIComponent_uri_chars value), Henc.
Qed.

Lemma is_production_iff (env : Env) :
  is_production env = true <-> NODE_ENV env = Some (lit "production").
Proof.
  unfold is_production. destruct (NODE_ENV env) as [v|].
  - rewrite str_eqb_eq. split; congruence.
  - split; discriminate.
Qed.

(** C6: the serialized cookie has the attribute [Secure] if and only if
    [NODE_ENV] is ["production"]; the other attributes, among them
    [Path=/], [Max-Age=2592000], [HttpOnly] and [SameSite=Lax], are the same
    list in every environment. *)
Theorem C6_secure_only_in_production
    (env : Env) (value c : jsstring) :
  serializeSessionCookie env value = Ok c ->
  (In (lit "Secure") (attributes_of c)
   <-> NODE_ENV env = Some (lit "production"))
  /\ exists common,
       ~ In (lit "Secure") common
       /\ In (lit "Path=/") common
       /\ In (lit "Max-Age=2592000") common
       /\ In (lit "HttpOnly") common
       /\ In (lit "SameSite=Lax") common
       /\ forall env' c',
            serializeSessionCookie env' value = Ok c' ->
            attributes_of c'
            = common ++ (if is_production env' then [lit "Secure"] else []).
Proof.
  intros Hc.
  destruct (serialize_inv _ _ _ Hc) as [enc [Henc [Huri ->]]].
  set (common := [lit "chatkit_session_id=" ++ enc; lit "Path=/";
                  lit "Max-Age=2592000"; lit "HttpOnly";
                  lit "SameSite=Lax"]).
  assert (Hcommon : ~ In (lit "Secure") common).
  { intros H. repeat (destruct H as [H|H]; [discriminate|]). exact H. }
  split.
  - rewrite attributes_of_wire_format by exact Huri.
    fold common. rewrite <- is_production_iff, in_app_iff.
    destruct (is_production env).
    + split; [reflexivity|]. intros _. right. left. reflexivity.
    + split; [|discriminate]. intros [H|[]]. contradiction.
  - exists common. split; [exact Hcommon|].
    split; [right; left; reflexivity|].
    split; [right; right; left; reflexivity|].
    split; [right; right; right; left; reflexivity|].
    split; [right; right; right; right; left; reflexivity|].
    intros env' c' Hc'.
    destruct (serialize_inv _ _ _ Hc') as [enc' [Henc' [_ ->]]].
    assert (enc' = enc) by congruence. subst enc'.
    apply attributes_of_wire_format, Huri.
Qed.

Lemma C6_secure_only_in_production_witness :
  (In (lit "Secure")
      (attributes_of (lit "chatkit_session_id=Secure; Path=/; Max-Age=2592000; HttpOnly; SameSite=Lax"))
   <-> NODE_ENV env_development = Some (lit "production"))
  /\ exists common,
       ~ In (lit "Secure") common
       /\ In (lit "Path=/") common
       /\ In (lit "Max-Age=2592000") common
       /\ In (lit "HttpOnly") common
       /\ In (lit "SameSite=Lax") common
       /\ forall env' c',
            serializeSessionCookie env' (lit "Secure") = Ok c' ->
            attributes_of c'
            = common ++ (if is_production env' then [lit "Secure"] else []).
Proof.
  apply (C6_secure_only_in_production env_development (lit "Secure")).
  reflexivity.
Defined.

(** ** C7: the two outputs agree *)

(** C7: on every return of [resolveUserId], [sessionCookie] is null exactly
    when the identifier was read from the inbound cookie, in which case it
    is the parsed value; and a cookie that is not null is the serialization
    of the very identifier returned with it, which is the generated one:
    parsing the cookie back gives that identifier URL-encoded. *)
Theorem C7_outputs_mutually_consistent
    (request : Request) (env : Env) (rnd : RandomSource) (r : Resolved) :
  resolveUserId request env rnd = Ok r ->
  (sessionCookie r = None <-> origin request = FromCookie)
  /\ (sessionCookie r = None ->
      getCookieValue (headers_get_cookie request) SESSION_COOKIE_NAME
      = Some (userId r))
  /\ (forall c, sessionCookie r = Some c ->
        origin request = Generated
        /\ userId r = generate rnd
        /\ serializeSessionCookie env (userId r) = Ok c
        /\ exists encoded,
             encodeURIComponent (userId r) = Ok encoded
             /\ getCookieValue (Some c) SESSION_COOKIE_NAME = Some encoded).
Proof.
  intros Hr. unfold origin.
  destruct (resolve_cases _ _ _ _ Hr)
    as [[Hget [Hne Hnone]]|[Hfalsy [Hid [enc [Henc Hsome]]]]].
  - rewrite Hget, Hnone. cbn [truthy_opt].
    destruct (userId r) as [|x u] eqn:Hu; [congruence|].
    cbn [truthy]. repeat split; auto; discriminate.
  - rewrite Hfalsy, Hsome. split; [split; discriminate|].
    split; [discriminate|].
    intros c Hc. inversion Hc; subst c.
    split; [reflexivity|]. split; [exact Hid|]. split.
    + rewrite serialize_wire_format, Henc. reflexivity.
    + exists enc. split; [exact Henc|].
      apply parse_wire_format, (encodeURIComponent_uri_chars (userId r)), Henc.
Qed.

Lemma C7_outputs_mutually_consistent_witness :
  (Some (wire_format true sample_uuid) = None
   <-> origin (request_with "theme=dark") = FromCookie)
  /\ (Some (wire_format true sample_uuid) = None ->
      getCookieValue (Some (lit "theme=dark")) SESSION_COOKIE_NAME
      = Some sample_uuid)
  /\ (forall c, Some (wire_format true sample_uuid) = Some c ->
        origin (request_with "theme=dark") = Generated
        /\ sample_uuid = generate (CryptoRandomUUID sample_uuid)
        /\ serializeSessionCookie env_production sample_uuid = Ok c
        /\ exists encoded,
             encodeURIComponent sample_uuid = Ok encoded
             /\ getCookieValue (Some c) SESSION_COOKIE_NAME = Some encoded).
Proof.
  apply (C7_outputs_mutually_consistent (request_with "theme=dark")
           env_production (CryptoRandomUUID sample_uuid)
           {| userId := sample_uuid;
              sessionCookie := Some (wire_format true sample_uuid) |}).
  reflexivity.
Defined.

(** ** C8: distinct draws, distinct identifiers *)


Example toString_radix_samples :
  toString_radix 36 0.5%float = lit "0.i"
  /\ toString_radix 36 0%float = lit "0"
  /\ toString_radix 2 0.375%float = lit "0.011"
  /\ toString_radix 36 sample_double = lit "0.4fzyo82mvyq"
  /\ toString_radix 36 sample_double_below = lit "0.4fzyo82mvyq"
  /\ valid_draw (Math_random sample_double) = true.
Proof. repeat split; vm_compute; reflexivity. Qed.



(** ** C9: serialize, then parse *)

(** C9: parsing the serialized cookie of an identifier gives back
    [encodeURIComponent] of the identifier, an exception of the encoder
    being the only way either side fails; so an identifier the encoder
    leaves unchanged, as every output of [crypto.randomUUID] is, comes back
    itself, and any other comes back percent-encoded. *)
Theorem C9_serialize_then_parse :
  (forall (env : Env) (id : jsstring),
     (let! c := serializeSessionCookie env id in
      Ok (getCookieValue (Some c) SESSION_COOKIE_NAME))
     = (let! encoded := encodeURIComponent id in Ok (Some encoded)))
  /\ (forall (env : Env) (id : jsstring),
        encodeURIComponent id = Ok id ->
        exists c, serializeSessionCookie env id = Ok c
                  /\ getCookieValue (Some c) SESSION_COOKIE_NAME = Some id)
  /\ (forall (env : Env) (uuid : jsstring),
        is_uuid uuid = true ->
        exists c, serializeSessionCookie env uuid = Ok c
                  /\ getCookieValue (Some c) SESSION_COOKIE_NAME = Some uuid).
Proof.
  assert (Hfix : forall env id, encodeURIComponent id = Ok id ->
            exists c, serializeSessionCookie env id = Ok c
                      /\ getCookieValue (Some c) SESSION_COOKIE_NAME = Some id).
  { intros env id Hid. exists (wire_format (is_production env) id).
    rewrite serialize_wire_format, Hid. split; [reflexivity|].
    apply parse_wire_format, (encodeURIComponent_uri_chars id), Hid. }
  split; [|split].
  - intros env id. rewrite serialize_wire_format.
    destruct (encodeURIComponent id) as [enc|] eqn:Henc; [|reflexivity].
    cbn [bind]. f_equal.
    apply parse_wire_format, (encodeURIComponent_uri_chars id), Henc.
  - exact Hfix.
  - intros env uuid Hu. apply Hfix.
    apply encodeURIComponent_unreserved, uuid_unreserved, Hu.
Qed.

Lemma C9_serialize_then_parse_witness :
  exists c, serializeSessionCookie env_production sample_uuid = Ok c
            /\ getCookieValue (Some c) SESSION_COOKIE_NAME = Some sample_uuid.
Proof.
  apply (proj2 (proj2 C9_serialize_then_parse) env_production sample_uuid).
  reflexivity.
Defined.

Example round_trip_of_other_identifier :
  (let! c := serializeSessionCookie env_development (lit "a b;c") in
   Ok (getCookieValue (Some c) SESSION_COOKIE_NAME))
  = Ok (Some (lit "a%20b%3Bc")).
Proof. reflexivity. Qed.

Example round_trip_of_lone_surrogate :
  (let! c := serializeSessionCookie env_development [55357] in
   Ok (getCookieValue (Some c) SESSION_COOKIE_NAME))
  = Throw URIError.
Proof. reflexivity. Qed.

(** * Further properties of the parser and the resolver *)

(** ** What a parsed cookie value can look like *)

Lemma split_parts_no_sep (sep : code_unit) (s : jsstring) :
  ~ In sep (fst (split_parts sep s))
  /\ Forall (fun piece => ~ In sep piece) (snd (split_parts sep s)).
Proof.
  induction s as [|c s [IHhd IHtl]]; cbn [split_parts].
  - split; [intros [] | constructor].
  - destruct (split_parts sep s) as [p ps]. cbn [fst snd] in *.
    destruct (N.eqb_spec c sep) as [->|Hc]; cbn [fst snd].
    + split; [intros [] | constructor; assumption].
    + split; [|assumption]. intros [E|E]; [congruence | tauto].
Qed.

Lemma split_pieces_no_sep (sep : code_unit) (s piece : jsstring) :
  In piece (split sep s) -> ~ In sep piece.
Proof.
  unfold split. pose proof (split_parts_no_sep sep s) as [Hhd Htl].
  destruct (split_parts sep s) as [p ps]. cbn [fst snd] in *.
  rewrite Forall_forall in Htl.
  intros [<-|Hin]; [exact Hhd | apply Htl, Hin].
Qed.

Lemma trimStart_incl (s : jsstring) (c : code_unit) :
  In c (trimStart s) -> In c s.
Proof.
  induction s as [|x s IH]; cbn [trimStart]; [tauto|].
  destruct (is_white_space x); [right; auto | tauto].
Qed.

Lemma trim_incl (s : jsstring) (c : code_unit) : In c (trim s) -> In c s.
Proof.
  unfold trim, trimEnd. intros H.
  apply in_rev, trimStart_incl in H. rewrite <- in_rev in H.
  apply trimStart_incl, H.
Qed.

Lemma trimStart_idempotent (s : jsstring) :
  trimStart (trimStart s) = trimStart s.
Proof.
  induction s as [|x s IH]; [reflexivity|]. cbn [trimStart].
  destruct (is_white_space x) eqn:Hx; [exact IH|].
  cbn [trimStart]. rewrite Hx. reflexivity.
Qed.

Lemma trimStart_snoc (s : jsstring) (c : code_unit) :
  is_white_space c = false -> trimStart (s ++ [c]) = trimStart s ++ [c].
Proof.
  intros Hc. induction s as [|x s IH]; cbn [app trimStart].
  - rewrite Hc. reflexivity.
  - destruct (is_white_space x); [exact IH | reflexivity].
Qed.

Lemma trimStart_head (s t : jsstring) (c : code_unit) :
  trimStart s = c :: t -> is_white_space c = false.
Proof.
  induction s as [|x s IH]; cbn [trimStart]; [discriminate|].
  destruct (is_white_space x) eqn:Hx; [exact IH|].
  intros H. inversion H; subst. exact Hx.
Qed.

Lemma trimStart_trimEnd (s : jsstring) :
  trimStart (trimEnd (trimStart s)) = trimEnd (trimStart s).
Proof.
  destruct (trimStart s) as [|c t] eqn:Hs; [reflexivity|].
  pose proof (trimStart_head _ _ _ Hs) as Hc.
  unfold trimEnd. cbn [rev]. rewrite trimStart_snoc by exact Hc.
  rewrite rev_app_distr. cbn [rev app trimStart]. rewrite Hc. reflexivity.
Qed.

Lemma trim_idempotent (s : jsstring) : trim (trim s) = trim s.
Proof.
  unfold trim. rewrite trimStart_trimEnd.
  unfold trimEnd. rewrite rev_involutive, trimStart_idempotent.
  reflexivity.
Qed.

(** A value the loop returns is the trimmed text after the first [=] of one
    of the segments. *)
Lemma find_cookie_some (name r : jsstring) (cookies : list jsstring) :
  find_cookie name cookies = Some r ->
  exists cookie n v,
    In cookie cookies /\ split_first (ch "=") cookie = Some (n, v)
    /\ n <> [] /\ trim n = name /\ r = trim v.
Proof.
  induction cookies as [|cookie cookies IH]; [discriminate|].
  destruct (split_first (ch "=") cookie) as [[n v]|] eqn:Hsf.
  - rewrite (find_cookie_pair _ _ _ _ _ Hsf).
    destruct n as [|c n].
    + cbn [truthy negb]. intros H.
      destruct (IH H) as [k [m [w [Hin Hrest]]]].
      exists k, m, w. split; [right; exact Hin | exact Hrest].
    + cbn [truthy negb].
      destruct (str_eqb (trim (c :: n)) name) eqn:E.
      * intros H. inversion H; subst r. apply str_eqb_eq in E.
        exists cookie, (c :: n), v.
        repeat split; [left; reflexivity | exact Hsf | discriminate | exact E].
      * intros H. destruct (IH H) as [k [m [w [Hin Hrest]]]].
        exists k, m, w. split; [right; exact Hin | exact Hrest].
  - rewrite (find_cookie_no_pair _ _ _ Hsf). intros H.
    destruct (IH H) as [k [m [w [Hin Hrest]]]].
    exists k, m, w. split; [right; exact Hin | exact Hrest].
Qed.

(** X1: whatever the header and the name, a value [getCookieValue] returns
    holds no semicolon. *)
Theorem X1_cookie_value_has_no_semicolon
    (header : option jsstring) (name v : jsstring) :
  getCookieValue header name = Some v -> ~ In (ch ";") v.
Proof.
  destruct header as [h|]; [|discriminate]. unfold getCookieValue.
  destruct (negb (truthy h)); [discriminate|]. intros H.
  destruct (find_cookie_some _ _ _ H) as [cookie [n [w [Hin [Hsf [_ [_ ->]]]]]]].
  intros Hsemi. apply trim_incl in Hsemi.
  apply (split_pieces_no_sep (ch ";") h cookie Hin).
  destruct (split_first_app _ _ _ _ Hsf) as [-> _].
  apply in_or_app. right. right. exact Hsemi.
Qed.

Lemma X1_cookie_value_has_no_semicolon_witness :
  ~ In (ch ";") (lit "a=b c").
Proof.
  apply (X1_cookie_value_has_no_semicolon
           (Some (lit "x=1;chatkit_session_id = a=b c ;y")) SESSION_COOKIE_NAME).
  reflexivity.
Defined.

(** X2: a value [getCookieValue] returns is already trimmed: trimming it
    again changes nothing, so it neither starts nor ends with white
    space. *)
Theorem X2_cookie_value_is_trimmed
    (header : option jsstring) (name v : jsstring) :
  getCookieValue header name = Some v -> trim v = v.
Proof.
  destruct header as [h|]; [|discriminate]. unfold getCookieValue.
  destruct (negb (truthy h)); [discriminate|]. intros H.
  destruct (find_cookie_some _ _ _ H) as [cookie [n [w [_ [_ [_ [_ ->]]]]]]].
  apply trim_idempotent.
Qed.

Lemma X2_cookie_value_is_trimmed_witness :
  trim (lit "a=b c") = lit "a=b c".
Proof.
  apply (X2_cookie_value_is_trimmed
           (Some (lit "x=1;chatkit_session_id = a=b c ;y")) SESSION_COOKIE_NAME).
  reflexivity.
Defined.

(** ** The identity survives the round trip through the browser *)

Lemma trimStart_app_white (p s : jsstring) :
  forallb is_white_space p = true -> trimStart (p ++ s) = trimStart s.
Proof.
  induction p as [|x p IH]; cbn [forallb app trimStart]; [reflexivity|].
  rewrite andb_true_iff. intros [-> Hp]. auto.
Qed.

Lemma white_space_not_equals (p : jsstring) :
  forallb is_white_space p = true -> ~ In (ch "=") p.
Proof.
  rewrite forallb_forall. intros H Hin. apply H in Hin.
  vm_compute in Hin. discriminate.
Qed.

Lemma percent_utf8_starts (cp : N) : exists t, percent_utf8 cp = 37 :: t.
Proof.
  unfold percent_utf8, utf8.
  destruct (cp <? 128); [|destruct (cp <? 2048); [|destruct (cp <? 65536)]];
    cbn [flat_map percent app]; eexists; reflexivity.
Qed.

(** The encoding of a non-empty string is not empty. *)
Lemma encodeURIComponent_nonempty (s e : jsstring) :
  s <> [] -> encodeURIComponent s = Ok e -> e <> [].
Proof.
  destruct s as [|x u]; [congruence|]. intros _.
  cbn [encodeURIComponent].
  assert (Hp : forall cp o,
            (let! r := o in Ok (percent_utf8 cp ++ r)) = Ok e -> e <> []).
  { intros cp [r|] H; [|discriminate]. cbn [bind] in H.
    destruct (percent_utf8_starts cp) as [t Ht]. rewrite Ht in H.
    inversion H. discriminate. }
  destruct (is_unreserved x).
  - destruct (encodeURIComponent u); cbn [bind]; [|discriminate].
    intros H. inversion H. discriminate.
  - destruct (is_low_surrogate x); [discriminate|].
    destruct (is_high_surrogate x); [|apply Hp].
    destruct u as [|d u]; [discriminate|].
    destruct (is_low_surrogate d); [apply Hp | discriminate].
Qed.

(** A cookie pair of the session, after any white space, is a pair named
    [chatkit_session_id]. *)
Lemma padded_session_pair (padding value : jsstring) :
  forallb is_white_space padding = true ->
  pair_named SESSION_COOKIE_NAME
    (padding ++ lit "chatkit_session_id=" ++ value) value.
Proof.
  intros Hp. exists (padding ++ SESSION_COOKIE_NAME). split.
  - change (padding ++ lit "chatkit_session_id=" ++ value)
      with (padding ++ (SESSION_COOKIE_NAME ++ ch "=" :: value)).
    rewrite app_assoc. apply split_first_intro.
    rewrite in_app_iff. intros [H|H].
    + exact (white_space_not_equals _ Hp H).
    + vm_compute in H. repeat (destruct H as [H|H]; [discriminate|]).
      exact H.
  - unfold trim. rewrite trimStart_app_white by exact Hp. reflexivity.
Qed.

(** X3: when [resolveUserId] has minted a cookie and a later request
    carries its [name=value] pair - first in the Cookie header or after
    other cookies of other names, with or without white space before it -
    the resolver returns the URL-encoded identifier of the first call and
    mints nothing, provided that identifier is not empty.  For a draw
    within the contract of the platform the identifier is the same in both
    calls. *)
Theorem X3_minted_identity_is_stable
    (request : Request) (env : Env) (rnd : RandomSource) (r : Resolved)
    (c : jsstring) (header padding : jsstring) (pre post : list jsstring)
    (env' : Env) (rnd' : RandomSource) :
  resolveUserId request env rnd = Ok r ->
  sessionCookie r = Some c ->
  userId r <> [] ->
  forallb is_white_space padding = true ->
  no_pair_named SESSION_COOKIE_NAME pre ->
  split (ch ";") header
  = pre ++ (padding ++ hd [] (split (ch ";") c)) :: post ->
  exists encoded,
    encodeURIComponent (userId r) = Ok encoded
    /\ resolveUserId {| headers_get_cookie := Some header |} env' rnd'
       = Ok {| userId := encoded; sessionCookie := None |}
    /\ (valid_draw rnd = true -> encoded = userId r).
Proof.
  intros Hr Hc Hne Hpad Hpre Hsplit.
  destruct (resolve_cases _ _ _ _ Hr)
    as [[_ [_ Hnone]]|[_ [Hid [enc [Henc Hsome]]]]]; [congruence|].
  rewrite Hsome in Hc. inversion Hc; subst c. clear Hc.
  pose proof (encodeURIComponent_uri_chars _ _ Henc) as Huri.
  assert (Hsemi : ~ In (ch ";") enc).
  { intros H. rewrite Forall_forall in Huri.
    apply Huri, uri_char_not_delim in H. tauto. }
  rewrite wire_format_split in Hsplit by exact Hsemi. cbn [hd] in Hsplit.
  exists enc. split; [exact Henc|]. split.
  - apply resolve_reuse.
    + cbn [headers_get_cookie].
      rewrite (getCookieValue_first_pair header pre post _ enc Hsplit Hpre).
      * f_equal. apply trim_clean. rewrite Forall_forall in *.
        intros x Hx. apply uri_char_not_white; auto.
      * apply padded_session_pair, Hpad.
    + exact (encodeURIComponent_nonempty _ _ Hne Henc).
  - intros Hvalid. rewrite Hid in Henc.
    rewrite generate_encodes_to_itself in Henc by exact Hvalid.
    inversion Henc; subst. symmetry. exact Hid.
Qed.

Lemma X3_minted_identity_is_stable_witness :
  exists encoded,
    encodeURIComponent sample_uuid = Ok encoded
    /\ resolveUserId
         (request_with "theme=dark; chatkit_session_id=123e4567-e89b-42d3-a456-426614174000")
         env_development (MathRandom (lit "0.zz"))
       = Ok {| userId := encoded; sessionCookie := None |}
    /\ (valid_draw (CryptoRandomUUID sample_uuid) = true ->
        encoded = sample_uuid).
Proof.
  apply (X3_minted_identity_is_stable request_without_cookie env_production
           (CryptoRandomUUID sample_uuid)
           {| userId := sample_uuid;
              sessionCookie := Some (wire_format true sample_uuid) |}
           (wire_format true sample_uuid)
           (lit "theme=dark; chatkit_session_id=123e4567-e89b-42d3-a456-426614174000")
           (lit " ") [lit "theme=dark"] []).
  - reflexivity.
  - reflexivity.
  - discriminate.
  - reflexivity.
  - constructor; [|constructor].
    apply (no_pair_other_name _ _ (lit "theme") (lit "dark")).
    + reflexivity.
    + vm_compute. discriminate.
  - reflexivity.
Defined.

(** * The create-session handler *)

(** ** Reading the error of the upstream reply *)

Lemma object_message_get (o : option json) :
  object_message o = typeof_string (get_opt o (lit "message")).
Proof.
  unfold object_message, has_key.
  destruct o as [[| | | | |members]|]; try reflexivity.
  cbn [truthy_object andb].
  destruct (get_opt (Some (JObject members)) (lit "message")); reflexivity.
Qed.

Lemma guarded_get (key : jsstring) (o : option json)
    (k : option json -> option jsstring) :
  k None = None ->
  (if truthy_object o && has_key key o then k (get_opt o key) else None)
  = k (get_opt o key).
Proof.
  intros Hk. unfold has_key.
  destruct o as [[| | | | |members]|]; cbn [truthy_object andb];
    try (symmetry; exact Hk).
  destruct (get_opt (Some (JObject members)) key); [reflexivity|].
  symmetry. exact Hk.
Qed.

Lemma follow_one (v : json) (a : jsstring) : follow v [a] = get v a.
Proof. cbn [follow]. destruct (get v a); reflexivity. Qed.

Lemma follow_two (v : json) (a b : jsstring) :
  follow v [a; b] = get_opt (get v a) b.
Proof.
  cbn [follow]. destruct (get v a) as [w|]; [|reflexivity].
  cbn [get_opt]. destruct (get w b); reflexivity.
Qed.

Lemma follow_three (v : json) (a b c : jsstring) :
  follow v [a; b; c] = get_opt (get_opt (get v a) b) c.
Proof.
  cbn [follow]. destruct (get v a) as [w|]; [|reflexivity].
  cbn [get_opt]. destruct (get w b) as [x|]; [|reflexivity].
  cbn [get_opt]. destruct (get x c); reflexivity.
Qed.

(** X4: for every JSON value, [extractUpstreamError] returns the first
    string found at [error], [error.message], [details], [details.error],
    [details.error.message], [message], in this order, and [null] when none
    of these is a string; an empty string counts as found. *)
Theorem X4_extractUpstreamError_first_string (payload : json) :
  extractUpstreamError payload
  = first_string (map (follow payload) error_paths).
Proof.
  unfold error_paths. cbn [map].
  rewrite !follow_one, !follow_two, follow_three.
  unfold extractUpstreamError.
  destruct (negb (json_truthy payload)) eqn:Hfalsy.
  - destruct payload as [| b | x | s | items | members];
      try reflexivity; discriminate.
  - rewrite object_message_get.
    rewrite (guarded_get (lit "error") (get payload (lit "details"))
               (fun nestedError =>
                  match typeof_string nestedError with
                  | Some s => Some s
                  | None => object_message nestedError
                  end)) by reflexivity.
    rewrite object_message_get. cbn [first_string].
    destruct (typeof_string (get payload (lit "error"))); [reflexivity|].
    destruct (typeof_string
                (get_opt (get payload (lit "error")) (lit "message")));
      [reflexivity|].
    destruct (typeof_string (get payload (lit "details"))); [reflexivity|].
    destruct (typeof_string
                (get_opt (get payload (lit "details")) (lit "error")));
      [reflexivity|].
    destruct (typeof_string
                (get_opt
                   (get_opt (get payload (lit "details")) (lit "error"))
                   (lit "message"))); [reflexivity|].
    destruct (typeof_string (get payload (lit "message"))); reflexivity.
Qed.

Example upstream_error_object :
  extractUpstreamError
    (JObject [(lit "error",
               JObject [(lit "code", JNumber 401%float);
                        (lit "message", JString (lit "Invalid key"))]);
              (lit "message", JString (lit "outer"))])
  = Some (lit "Invalid key").
Proof. reflexivity. Qed.

Example upstream_error_empty_string_wins :
  extractUpstreamError
    (JObject [(lit "error", JString []);
              (lit "details", JString (lit "more"))])
  = Some [].
Proof. reflexivity. Qed.

Example upstream_error_of_array :
  extractUpstreamError (JArray [JString (lit "error")]) = None.
Proof. reflexivity. Qed.

(** ** The minted cookie as a response header *)

Lemma uri_char_value_unit (c : code_unit) :
  is_uri_char c = true -> (c <=? 255) = true /\ is_value_unit c = true.
Proof.
  unfold is_uri_char, is_unreserved, is_alpha_num, is_value_unit.
  intros H. bool_prop_in H.
  split; [bool_prop; lia|].
  rewrite andb_true_iff, negb_true_iff. bool_prop. lia.
Qed.

Lemma normalize_value_kept (first last : code_unit) (middle : jsstring) :
  is_http_whitespace first = false ->
  is_http_whitespace last = false ->
  normalize_value (first :: middle ++ [last]) = first :: middle ++ [last].
Proof.
  intros Hf Hl. unfold normalize_value. cbn [strip_leading]. rewrite Hf.
  change (first :: middle ++ [last]) with ((first :: middle) ++ [last]).
  rewrite rev_unit. cbn [strip_leading]. rewrite Hl.
  rewrite <- rev_unit. apply rev_involutive.
Qed.

Lemma wire_format_ends (production : bool) (encoded : jsstring) :
  exists middle last,
    wire_format production encoded = ch "c" :: middle ++ [last]
    /\ is_http_whitespace last = false.
Proof.
  unfold wire_format.
  change (lit "chatkit_session_id=") with (ch "c" :: lit "hatkit_session_id=").
  destruct production.
  - exists (lit "hatkit_session_id=" ++ encoded
            ++ lit "; Path=/; Max-Age=2592000; HttpOnly; SameSite=Lax; Secur"),
      (ch "e").
    split; [|reflexivity].
    cbn [app]. rewrite <- !app_assoc. reflexivity.
  - exists (lit "hatkit_session_id=" ++ encoded
            ++ lit "; Path=/; Max-Age=2592000; HttpOnly; SameSite=La"),
      (ch "x").
    split; [|reflexivity].
    cbn [app]. rewrite <- !app_assoc. reflexivity.
Qed.

Lemma wire_format_units (production : bool) (encoded : jsstring) :
  Forall (fun c => is_uri_char c = true) encoded ->
  forallb (fun c => c <=? 255) (wire_format production encoded) = true
  /\ forallb is_value_unit (wire_format production encoded) = true.
Proof.
  intros Huri. rewrite Forall_forall in Huri. unfold wire_format.
  split; rewrite !forallb_app, !andb_true_iff;
    (split; [reflexivity|]);
    (split; [apply forallb_forall; intros c Hc;
             apply uri_char_value_unit; auto|]);
    (split; [reflexivity|]); destruct production; reflexivity.
Qed.

(** A cookie in the wire format is a valid header value, stored as it
    is. *)
Lemma append_wire_format (headers : Headers) (name : jsstring)
    (production : bool) (encoded : jsstring) :
  Forall (fun c => is_uri_char c = true) encoded ->
  Headers_append headers name (wire_format production encoded)
  = Some (headers ++ [(name, wire_format production encoded)]).
Proof.
  intros Huri. unfold Headers_append.
  destruct (wire_format_units production encoded Huri) as [Hb Hv].
  rewrite Hb.
  destruct (wire_format_ends production encoded) as [m [l [E Hl]]].
  assert (Hn : normalize_value (wire_format production encoded)
               = wire_format production encoded).
  { rewrite E. apply normalize_value_kept; [reflexivity | exact Hl]. }
  rewrite Hn, Hv. reflexivity.
Qed.

Lemma new_Response_constructible (payload : json) (status : N)
    (headers : Headers) :
  new_Response payload status headers
  = if constructible_status (unsigned_short status)
    then Some {| response_status := unsigned_short status;
                 response_headers := headers;
                 response_body := payload |}
    else None.
Proof. reflexivity. Qed.

Lemma unsigned_short_small (status : N) :
  status < 65536 -> unsigned_short status = status.
Proof. intros H. unfold unsigned_short. apply N.mod_small, H. Qed.

Lemma buildJsonResponse_resolved
    (request : Request) (env : Env) (rnd : RandomSource) (r : Resolved)
    (payload : json) (status : N) :
  resolveUserId request env rnd = Ok r ->
  buildJsonResponse payload status json_content_type (sessionCookie r)
  = if constructible_status (unsigned_short status)
    then Some {| response_status := unsigned_short status;
                 response_headers := headers_after r;
                 response_body := payload |}
    else None.
Proof.
  intros Hr. unfold buildJsonResponse, headers_after, cookies_of.
  destruct (resolve_cases _ _ _ _ Hr)
    as [[_ [_ Hnone]]|[_ [_ [enc [Henc Hsome]]]]].
  - rewrite Hnone. cbn [map]. rewrite app_nil_r.
    apply new_Response_constructible.
  - rewrite Hsome.
    change (truthy (wire_format (is_production env) enc)) with true.
    cbv iota.
    rewrite append_wire_format
      by (apply (encodeURIComponent_uri_chars (userId r)), Henc).
    apply new_Response_constructible.
Qed.

(** X5: a cookie returned by [resolveUserId] is always a valid header
    value: [buildJsonResponse] never throws because of it and stores it
    unchanged in [Set-Cookie], after [Content-Type]; with such a cookie, or
    none, and a status that is a non-negative integer, it throws exactly
    when [new Response] refuses the status: when the status, converted to
    an unsigned short (modulo 65536), is outside 200..599 or is 204, 205 or
    304.  The response carries the converted status. *)
Theorem X5_resolved_cookie_is_a_valid_header
    (request : Request) (env : Env) (rnd : RandomSource) (r : Resolved)
    (payload : json) (status : N) :
  resolveUserId request env rnd = Ok r ->
  buildJsonResponse payload status json_content_type (sessionCookie r)
  = if constructible_status (unsigned_short status)
    then Some {| response_status := unsigned_short status;
                 response_headers := headers_after r;
                 response_body := payload |}
    else None.
Proof. apply buildJsonResponse_resolved. Qed.

Lemma X5_resolved_cookie_is_a_valid_header_witness :
  buildJsonResponse (error_payload (lit "Missing workflow id")) 400
    json_content_type (Some (wire_format true sample_uuid))
  = Some {| response_status := 400;
            response_headers :=
              [(lit "Content-Type", lit "application/json");
               (lit "Set-Cookie", wire_format true sample_uuid)];
            response_body := error_payload (lit "Missing workflow id") |}.
Proof.
  apply (X5_resolved_cookie_is_a_valid_header request_without_cookie
           env_production (CryptoRandomUUID sample_uuid)
           {| userId := sample_uuid;
              sessionCookie := Some (wire_format true sample_uuid) |}
           (error_payload (lit "Missing workflow id")) 400).
  reflexivity.
Defined.

Example cookie_with_line_feed_is_refused :
  buildJsonResponse JNull 200 json_content_type (Some (lit "a=b" ++ [10] ++ lit "c"))
  = None.
Proof. reflexivity. Qed.

Example status_is_taken_modulo_65536 :
  buildJsonResponse JNull 65736 json_content_type None
  = Some {| response_status := 200;
            response_headers := json_content_type;
            response_body := JNull |}.
Proof. reflexivity. Qed.

Example null_body_status_is_refused :
  buildJsonResponse JNull 304 json_content_type None = None.
Proof. reflexivity. Qed.

(** ** The handler as a whole *)

Section HandlerFacts.

Variable WORKFLOW_ID : jsstring.
Variable JSON_parse : jsstring -> option json.
Variable fetch : UpstreamRequest -> option UpstreamResponse.

Lemma settle_or_unexpected
    (request : Request) (env : Env) (rnd : RandomSource) (r : Resolved)
    (payload : json) (status : N) :
  resolveUserId request env rnd = Ok r ->
  status < 65536 ->
  match
    buildJsonResponse payload status json_content_type (sessionCookie r)
  with
  | Some response => Some response
  | None =>
      buildJsonResponse (error_payload (lit "Unexpected error")) 500
        json_content_type (sessionCookie r)
  end
  = Some (settle r payload status).
Proof.
  intros Hr Hshort. rewrite !(buildJsonResponse_resolved _ _ _ _ _ _ Hr).
  rewrite (unsigned_short_small status Hshort).
  unfold settle. destruct (constructible_status status); reflexivity.
Qed.

(** The handler after a successful resolution. *)
Lemma POST_resolved (process : Process) (request : Request)
    (text : option jsstring) (rnd : RandomSource)
    (key : jsstring) (r : Resolved) :
  OPENAI_API_KEY process = Some key ->
  key <> [] ->
  resolveUserId request (process_env process) rnd = Ok r ->
  POST WORKFLOW_ID JSON_parse fetch (lit "POST") process request text rnd
  = Some
      (let parsedBody := safeParseJson JSON_parse text in
       let resolvedWorkflowId := resolveWorkflowId WORKFLOW_ID parsedBody in
       if negb (json_truthy resolvedWorkflowId) then
         settle r (error_payload (lit "Missing workflow id")) 400
       else
         match
           fetch (upstreamRequest process key parsedBody resolvedWorkflowId
                    (userId r))
         with
         | None => settle r (error_payload (lit "Unexpected error")) 500
         | Some up =>
             if negb (upstream_ok up) then
               settle r
                 (JObject
                    [(lit "error",
                      JString
                        match extractUpstreamError (upstream_payload up) with
                        | Some message => message
                        | None =>
                            lit "Failed to create session: "
                            ++ upstream_statusText up
                        end);
                     (lit "details", upstream_payload up)])
                 (upstream_status up)
             else
               settle r
                 (JObject
                    [(lit "client_secret",
                      nullish (get (upstream_payload up)
                                 (lit "client_secret")) JNull);
                     (lit "expires_after",
                      nullish (get (upstream_payload up)
                                 (lit "expires_after")) JNull)])
                 200
         end).
Proof.
  intros Hkey Hne Hr. unfold POST, POST_try.
  change (negb (str_eqb (lit "POST") (lit "POST"))) with false. cbv iota.
  rewrite Hkey. destruct key as [|k0 key']; [congruence|].
  cbn [truthy negb]. rewrite Hr.
  cbv zeta.
  destruct (negb (json_truthy
                    (resolveWorkflowId WORKFLOW_ID
                       (safeParseJson JSON_parse text)))).
  - apply (settle_or_unexpected _ _ _ _ _ _ Hr). reflexivity.
  - destruct (fetch _) as [up|].
    + unfold respondToUpstream. fold (upstream_payload up).
      destruct (negb (upstream_ok up));
        apply (settle_or_unexpected _ _ _ _ _ _ Hr);
        [apply upstream_status_short | reflexivity].
    + rewrite (buildJsonResponse_resolved _ _ _ _ _ _ Hr). reflexivity.
Qed.

End HandlerFacts.

Lemma settle_headers (r : Resolved) (payload : json) (status : N) :
  response_headers (settle r payload status) = headers_after r.
Proof. unfold settle. destruct (constructible_status status); reflexivity. Qed.

Lemma settle_status (r : Resolved) (payload : json) (status : N) :
  response_status (settle r payload status)
  = if constructible_status status then status else 500.
Proof. unfold settle. destruct (constructible_status status); reflexivity. Qed.

Lemma getSetCookie_headers_after (r : Resolved) :
  getSetCookie (headers_after r) = cookies_of r.
Proof.
  unfold headers_after. destruct (cookies_of r) as [|c [|d l]] eqn:E.
  - reflexivity.
  - reflexivity.
  - unfold cookies_of in E. destruct (sessionCookie r); discriminate.
Qed.

(** The handler when it does not reach a successful resolution. *)
Lemma POST_unresolved (WORKFLOW_ID : jsstring)
    (JSON_parse : jsstring -> option json)
    (fetch : UpstreamRequest -> option UpstreamResponse)
    (method : jsstring) (process : Process) (request : Request)
    (text : option jsstring) (rnd : RandomSource) :
  method <> lit "POST"
  \/ truthy_opt (OPENAI_API_KEY process) = false
  \/ (exists e, resolveUserId request (process_env process) rnd = Throw e) ->
  exists status message,
    POST WORKFLOW_ID JSON_parse fetch method process request text rnd
    = Some {| response_status := status;
              response_headers := json_content_type;
              response_body := error_payload message |}
    /\ (status = 405 \/ status = 500).
Proof.
  intros H. unfold POST.
  destruct (str_eqb method (lit "POST")) eqn:Hm; cbn [negb].
  - apply str_eqb_eq in Hm.
    destruct H as [H|H]; [contradiction|].
    unfold POST_try.
    destruct (OPENAI_API_KEY process) as [[|k key]|] eqn:Hkey.
    + do 2 eexists. split; [reflexivity | right; reflexivity].
    + destruct H as [H|[e He]]; [discriminate|].
      cbn [truthy negb]. rewrite He.
      do 2 eexists. split; [reflexivity | right; reflexivity].
    + do 2 eexists. split; [reflexivity | right; reflexivity].
  - do 2 eexists. split; [reflexivity | left; reflexivity].
Qed.

(** The three ways of a call. *)
Lemma POST_ways (method : jsstring) (process : Process) (request : Request)
    (rnd : RandomSource) :
  (method <> lit "POST"
   \/ truthy_opt (OPENAI_API_KEY process) = false
   \/ (exists e, resolveUserId request (process_env process) rnd = Throw e))
  \/ (method = lit "POST"
      /\ exists key r,
           OPENAI_API_KEY process = Some key /\ key <> []
           /\ resolveUserId request (process_env process) rnd = Ok r).
Proof.
  destruct (str_eqb method (lit "POST")) eqn:Hm.
  - apply str_eqb_eq in Hm.
    destruct (OPENAI_API_KEY process) as [[|k key]|] eqn:Hkey.
    + left. right. left. reflexivity.
    + destruct (resolveUserId request (process_env process) rnd)
        as [r|e] eqn:Hr.
      * right. split; [exact Hm|]. exists (k :: key), r.
        repeat split; [discriminate].
      * left. right. right. exists e. reflexivity.
    + left. right. left. reflexivity.
  - left. left. intros E. rewrite E, str_eqb_refl in Hm. discriminate.
Qed.

(** X6: [POST] never rejects: whatever the method, the environment, the
    request, its body, the random draw, the parser and the upstream do, a
    response is returned. *)
Theorem X6_POST_always_responds
    (WORKFLOW_ID : jsstring) (JSON_parse : jsstring -> option json)
    (fetch : UpstreamRequest -> option UpstreamResponse)
    (method : jsstring) (process : Process) (request : Request)
    (text : option jsstring) (rnd : RandomSource) :
  exists response,
    POST WORKFLOW_ID JSON_parse fetch method process request text rnd
    = Some response.
Proof.
  destruct (POST_ways method process request rnd)
    as [H|[-> [key [r [Hkey [Hne Hr]]]]]].
  - destruct (POST_unresolved WORKFLOW_ID JSON_parse fetch _ _ _ text _ H)
      as [status [message [E _]]].
    eexists. exact E.
  - eexists. apply (POST_resolved _ _ _ _ _ _ _ key r); assumption.
Qed.

(** The headers of the response after a resolution. *)
Lemma POST_resolved_headers
    (WORKFLOW_ID : jsstring) (JSON_parse : jsstring -> option json)
    (fetch : UpstreamRequest -> option UpstreamResponse)
    (process : Process) (request : Request)
    (text : option jsstring) (rnd : RandomSource)
    (key : jsstring) (r : Resolved) :
  OPENAI_API_KEY process = Some key ->
  key <> [] ->
  resolveUserId request (process_env process) rnd = Ok r ->
  exists response,
    POST WORKFLOW_ID JSON_parse fetch (lit "POST") process request text rnd
    = Some response
    /\ response_headers response = headers_after r
    /\ getSetCookie (response_headers response) = cookies_of r.
Proof.
  intros Hkey Hne Hr.
  rewrite (POST_resolved _ _ _ _ _ _ _ key r Hkey Hne Hr).
  eexists. split; [reflexivity|]. cbv zeta.
  assert (Hh : forall response,
            response_headers response = headers_after r ->
            response_headers response = headers_after r
            /\ getSetCookie (response_headers response) = cookies_of r).
  { intros response E. split; [exact E|].
    rewrite E. apply getSetCookie_headers_after. }
  apply Hh.
  destruct (negb (json_truthy _)); [apply settle_headers|].
  destruct (fetch _) as [up|]; [|apply settle_headers].
  destruct (negb (upstream_ok up)); apply settle_headers.
Qed.

(** X7: once the API key is present and the resolution has succeeded, the
    response carries exactly the cookie of the resolution, after
    [Content-Type], whatever comes next: a missing workflow id, a failing
    network, a refusal of the upstream, a success. *)
Theorem X7_POST_carries_the_minted_cookie
    (WORKFLOW_ID : jsstring) (JSON_parse : jsstring -> option json)
    (fetch : UpstreamRequest -> option UpstreamResponse)
    (process : Process) (request : Request)
    (text : option jsstring) (rnd : RandomSource)
    (key : jsstring) (r : Resolved) :
  OPENAI_API_KEY process = Some key ->
  key <> [] ->
  resolveUserId request (process_env process) rnd = Ok r ->
  exists response,
    POST WORKFLOW_ID JSON_parse fetch (lit "POST") process request text rnd
    = Some response
    /\ response_headers response = headers_after r
    /\ getSetCookie (response_headers response) = cookies_of r.
Proof. apply POST_resolved_headers. Qed.

Lemma X7_POST_carries_the_minted_cookie_witness :
  exists response,
    POST sample_WORKFLOW_ID sample_JSON_parse sample_fetch_rejects
      (lit "POST") sample_process request_without_cookie None
      (CryptoRandomUUID sample_uuid)
    = Some response
    /\ response_headers response
       = headers_after
           {| userId := sample_uuid;
              sessionCookie := Some (wire_format true sample_uuid) |}
    /\ getSetCookie (response_headers response)
       = [wire_format true sample_uuid].
Proof.
  apply (X7_POST_carries_the_minted_cookie sample_WORKFLOW_ID
           sample_JSON_parse sample_fetch_rejects sample_process
           request_without_cookie None (CryptoRandomUUID sample_uuid)
           (lit "sk-test")
           {| userId := sample_uuid;
              sessionCookie := Some (wire_format true sample_uuid) |}).
  - reflexivity.
  - discriminate.
  - reflexivity.
Defined.

Lemma not_ok_is_not_200 (up : UpstreamResponse) :
  upstream_ok up = false -> upstream_status up <> 200.
Proof.
  unfold upstream_ok. intros H E. rewrite E in H. discriminate.
Qed.

(** X8: the handler answers 200 only when the upstream did: a response of
    status 200 means that the key was present, the resolution succeeded,
    [fetch] was called with the resolved [userId] and replied with a 2xx
    status; the body then has exactly [client_secret] and [expires_after],
    taken from the upstream reply, [null] when missing. *)
Theorem X8_POST_success_only_on_upstream_success
    (WORKFLOW_ID : jsstring) (JSON_parse : jsstring -> option json)
    (fetch : UpstreamRequest -> option UpstreamResponse)
    (method : jsstring) (process : Process) (request : Request)
    (text : option jsstring) (rnd : RandomSource) (response : Response) :
  POST WORKFLOW_ID JSON_parse fetch method process request text rnd
  = Some response ->
  response_status response = 200 ->
  exists key r up,
    OPENAI_API_KEY process = Some key
    /\ resolveUserId request (process_env process) rnd = Ok r
    /\ fetch (upstreamRequest process key (safeParseJson JSON_parse text)
                (resolveWorkflowId WORKFLOW_ID
                   (safeParseJson JSON_parse text))
                (userId r))
       = Some up
    /\ upstream_ok up = true
    /\ response_body response
       = JObject
           [(lit "client_secret",
             nullish (get (upstream_payload up) (lit "client_secret")) JNull);
            (lit "expires_after",
             nullish (get (upstream_payload up) (lit "expires_after")) JNull)].
Proof.
  intros Hpost H200.
  destruct (POST_ways method process request rnd)
    as [H|[-> [key [r [Hkey [Hne Hr]]]]]].
  - destruct (POST_unresolved WORKFLOW_ID JSON_parse fetch _ _ _ text _ H)
      as [status [message [E Hs]]].
    rewrite E in Hpost. inversion Hpost; subst response.
    cbn [response_status] in H200. destruct Hs; subst; discriminate.
  - rewrite (POST_resolved _ _ _ _ _ _ _ key r Hkey Hne Hr) in Hpost.
    inversion Hpost as [E]. clear Hpost. cbv zeta in E.
    exists key, r.
    destruct (negb (json_truthy _)).
    { subst response. rewrite settle_status in H200. discriminate. }
    destruct (fetch _) as [up|].
    2:{ subst response. rewrite settle_status in H200. discriminate. }
    exists up. repeat split; try assumption.
    + destruct (negb (upstream_ok up)) eqn:Hok.
      * subst response. rewrite settle_status in H200.
        apply negb_true_iff, not_ok_is_not_200 in Hok.
        destruct (constructible_status (upstream_status up));
          [contradiction | discriminate].
      * apply negb_false_iff in Hok. exact Hok.
    + destruct (negb (upstream_ok up)) eqn:Hok.
      * subst response. rewrite settle_status in H200.
        apply negb_true_iff, not_ok_is_not_200 in Hok.
        destruct (constructible_status (upstream_status up));
          [contradiction | discriminate].
      * subst response. reflexivity.
Qed.

Lemma X8_POST_success_only_on_upstream_success_witness :
  exists key r up,
    OPENAI_API_KEY sample_process = Some key
    /\ resolveUserId (request_with "chatkit_session_id=abc")
         (process_env sample_process) (CryptoRandomUUID sample_uuid) = Ok r
    /\ sample_fetch_200
         (upstreamRequest sample_process key
            (safeParseJson sample_JSON_parse (Some (lit "{}")))
            (resolveWorkflowId sample_WORKFLOW_ID
               (safeParseJson sample_JSON_parse (Some (lit "{}"))))
            (userId r))
       = Some up
    /\ upstream_ok up = true
    /\ JObject [(lit "client_secret", JString (lit "cs_1"));
                (lit "expires_after", JNull)]
       = JObject
           [(lit "client_secret",
             nullish (get (upstream_payload up) (lit "client_secret")) JNull);
            (lit "expires_after",
             nullish (get (upstream_payload up) (lit "expires_after")) JNull)].
Proof.
  apply (X8_POST_success_only_on_upstream_success sample_WORKFLOW_ID
           sample_JSON_parse sample_fetch_200 (lit "POST") sample_process
           (request_with "chatkit_session_id=abc") (Some (lit "{}"))
           (CryptoRandomUUID sample_uuid)
           {| response_status := 200;
              response_headers := json_content_type;
              response_body :=
                JObject [(lit "client_secret", JString (lit "cs_1"));
                         (lit "expires_after", JNull)] |}).
  - reflexivity.
  - reflexivity.
Defined.

(** X9: when the upstream replies with a status outside 200..299, the
    handler relays that status, with the error [extractUpstreamError] finds
    in the reply - or, when it finds none, [Failed to create session: ] and
    the status text - and the reply itself as [details]; but when
    [new Response] refuses the status (below 200, above 599, or 304) the
    answer is the 500 [Unexpected error] of the [catch] block. *)
Theorem X9_POST_relays_upstream_failure
    (WORKFLOW_ID : jsstring) (JSON_parse : jsstring -> option json)
    (fetch : UpstreamRequest -> option UpstreamResponse)
    (process : Process) (request : Request)
    (text : option jsstring) (rnd : RandomSource)
    (key : jsstring) (r : Resolved) (up : UpstreamResponse) :
  OPENAI_API_KEY process = Some key ->
  key <> [] ->
  resolveUserId request (process_env process) rnd = Ok r ->
  json_truthy
    (resolveWorkflowId WORKFLOW_ID (safeParseJson JSON_parse text)) = true ->
  fetch (upstreamRequest process key (safeParseJson JSON_parse text)
           (resolveWorkflowId WORKFLOW_ID (safeParseJson JSON_parse text))
           (userId r))
  = Some up ->
  upstream_ok up = false ->
  POST WORKFLOW_ID JSON_parse fetch (lit "POST") process request text rnd
  = Some
      (if constructible_status (upstream_status up)
       then {| response_status := upstream_status up;
               response_headers := headers_after r;
               response_body :=
                 JObject
                   [(lit "error",
                     JString
                       match extractUpstreamError (upstream_payload up) with
                       | Some message => message
                       | None =>
                           lit "Failed to create session: "
                           ++ upstream_statusText up
                       end);
                    (lit "details", upstream_payload up)] |}
       else {| response_status := 500;
               response_headers := headers_after r;
               response_body := error_payload (lit "Unexpected error") |}).
Proof.
  intros Hkey Hne Hr Hwf Hfetch Hok.
  rewrite (POST_resolved _ _ _ _ _ _ _ key r Hkey Hne Hr). cbv zeta.
  rewrite Hwf, Hfetch, Hok. reflexivity.
Qed.

Lemma X9_POST_relays_upstream_failure_witness :
  POST sample_WORKFLOW_ID sample_JSON_parse sample_fetch_401 (lit "POST")
    sample_process (request_with "chatkit_session_id=abc") None
    (CryptoRandomUUID sample_uuid)
  = Some {| response_status := 401;
            response_headers := json_content_type;
            response_body :=
              JObject
                [(lit "error", JString (lit "Invalid key"));
                 (lit "details",
                  JObject
                    [(lit "error",
                      JObject
                        [(lit "message", JString (lit "Invalid key"))])])] |}.
Proof.
  apply (X9_POST_relays_upstream_failure sample_WORKFLOW_ID
           sample_JSON_parse sample_fetch_401 sample_process
           (request_with "chatkit_session_id=abc") None
           (CryptoRandomUUID sample_uuid) (lit "sk-test")
           {| userId := lit "abc"; sessionCookie := None |}
           {| upstream_status := 401;
              upstream_status_short := eq_refl;
              upstream_statusText := lit "Unauthorized";
              upstream_json :=
                Some (JObject
                        [(lit "error",
                          JObject
                            [(lit "message",
                              JString (lit "Invalid key"))])]) |});
    try reflexivity.
  discriminate.
Defined.

Example upstream_304_becomes_500 :
  POST sample_WORKFLOW_ID sample_JSON_parse sample_fetch_304 (lit "POST")
    sample_process (request_with "chatkit_session_id=abc") None
    (CryptoRandomUUID sample_uuid)
  = Some {| response_status := 500;
            response_headers := json_content_type;
            response_body := error_payload (lit "Unexpected error") |}.
Proof. reflexivity. Qed.

Lemma POST_unresolved_without_fetch (WORKFLOW_ID : jsstring)
    (JSON_parse : jsstring -> option json)
    (fetch1 fetch2 : UpstreamRequest -> option UpstreamResponse)
    (method : jsstring) (process : Process) (request : Request)
    (text : option jsstring) (rnd : RandomSource) :
  method <> lit "POST"
  \/ truthy_opt (OPENAI_API_KEY process) = false
  \/ (exists e, resolveUserId request (process_env process) rnd = Throw e) ->
  POST WORKFLOW_ID JSON_parse fetch1 method process request text rnd
  = POST WORKFLOW_ID JSON_parse fetch2 method process request text rnd.
Proof.
  intros H. unfold POST.
  destruct (str_eqb method (lit "POST")) eqn:Hm; cbn [negb]; [|reflexivity].
  apply str_eqb_eq in Hm. unfold POST_try.
  destruct (OPENAI_API_KEY process) as [[|k key]|]; try reflexivity.
  cbn [truthy negb].
  destruct (resolveUserId request (process_env process) rnd) as [r|e] eqn:Hr;
    [|reflexivity].
  exfalso. destruct H as [H|[H|[e He]]];
    [contradiction | discriminate | discriminate].
Qed.

(** X10: the upstream is not called when the method is not POST, when the
    API key is missing or empty, when the resolution throws, or when the
    workflow id is falsy: the response is then the same whatever [fetch]
    would do. *)
Theorem X10_POST_no_upstream_call_without_key_or_workflow
    (WORKFLOW_ID : jsstring) (JSON_parse : jsstring -> option json)
    (fetch1 fetch2 : UpstreamRequest -> option UpstreamResponse)
    (method : jsstring) (process : Process) (request : Request)
    (text : option jsstring) (rnd : RandomSource) :
  method <> lit "POST"
  \/ truthy_opt (OPENAI_API_KEY process) = false
  \/ (exists e, resolveUserId request (process_env process) rnd = Throw e)
  \/ json_truthy
       (resolveWorkflowId WORKFLOW_ID (safeParseJson JSON_parse text))
     = false ->
  POST WORKFLOW_ID JSON_parse fetch1 method process request text rnd
  = POST WORKFLOW_ID JSON_parse fetch2 method process request text rnd.
Proof.
  intros H.
  destruct (POST_ways method process request rnd)
    as [Hu|[-> [key [r [Hkey [Hne Hr]]]]]].
  - apply POST_unresolved_without_fetch, Hu.
  - rewrite !(POST_resolved _ _ _ _ _ _ _ key r Hkey Hne Hr). cbv zeta.
    destruct H as [H|[H|[[e He]|H]]].
    + contradiction.
    + rewrite Hkey in H. destruct key; [congruence | discriminate].
    + congruence.
    + rewrite H. reflexivity.
Qed.

Lemma X10_POST_no_upstream_call_without_key_or_workflow_witness :
  POST [] sample_JSON_parse sample_fetch_200 (lit "POST") sample_process
    request_without_cookie (Some (lit "not json"))
    (CryptoRandomUUID sample_uuid)
  = POST [] sample_JSON_parse sample_fetch_401 (lit "POST") sample_process
      request_without_cookie (Some (lit "not json"))
      (CryptoRandomUUID sample_uuid).
Proof.
  apply (X10_POST_no_upstream_call_without_key_or_workflow []
           sample_JSON_parse sample_fetch_200 sample_fetch_401).
  right. right. right. reflexivity.
Defined.

Example missing_key_answers_500_without_cookie :
  POST sample_WORKFLOW_ID sample_JSON_parse sample_fetch_200 (lit "POST")
    {| process_env := env_production;
       OPENAI_API_KEY := None;
       CHATKIT_API_BASE := None |}
    request_without_cookie (Some (lit "{}")) (CryptoRandomUUID sample_uuid)
  = Some {| response_status := 500;
            response_headers := json_content_type;
            response_body :=
              error_payload
                (lit "Missing OPENAI_API_KEY environment variable") |}.
Proof. reflexivity. Qed.

(** X11: a response sets a cookie only when the identity was minted in
    this very call: if the response has a [Set-Cookie] header, then the
    method was POST, the API key was present and not empty, the request
    carried no usable session cookie, the resolver generated the
    identifier, and the header is exactly the one cookie it returned.  So a
    405, the 500 of a missing API key, and any response to a request that
    already has an identity set no cookie. *)
Theorem X11_POST_sets_a_cookie_only_when_minted
    (WORKFLOW_ID : jsstring) (JSON_parse : jsstring -> option json)
    (fetch : UpstreamRequest -> option UpstreamResponse)
    (method : jsstring) (process : Process) (request : Request)
    (text : option jsstring) (rnd : RandomSource) (response : Response) :
  POST WORKFLOW_ID JSON_parse fetch method process request text rnd
  = Some response ->
  getSetCookie (response_headers response) <> [] ->
  method = lit "POST"
  /\ (exists key, OPENAI_API_KEY process = Some key /\ key <> [])
  /\ origin request = Generated
  /\ exists cookie,
       resolveUserId request (process_env process) rnd
       = Ok {| userId := generate rnd; sessionCookie := Some cookie |}
       /\ getSetCookie (response_headers response) = [cookie].
Proof.
  intros Hpost Hset.
  destruct (POST_ways method process request rnd)
    as [H|[-> [key [r [Hkey [Hne Hr]]]]]].
  - destruct (POST_unresolved WORKFLOW_ID JSON_parse fetch _ _ _ text _ H)
      as [status [message [E _]]].
    rewrite E in Hpost. inversion Hpost; subst response.
    exfalso. apply Hset. reflexivity.
  - destruct (POST_resolved_headers WORKFLOW_ID JSON_parse fetch process request text rnd
                key r Hkey Hne Hr) as [resp [E [_ Hc]]].
    rewrite E in Hpost. inversion Hpost; subst resp.
    rewrite Hc in Hset |- *. unfold cookies_of in *.
    destruct (resolve_cases _ _ _ _ Hr)
      as [[_ [_ Hnone]]|[Hfalsy [Hid [enc [_ Hsome]]]]].
    + rewrite Hnone in Hset. contradiction.
    + split; [reflexivity|].
      split; [exists key; split; assumption|]. split.
      * unfold origin. rewrite Hfalsy. reflexivity.
      * rewrite Hsome. eexists. split; [|reflexivity].
        rewrite Hr. destruct r as [u sc]. cbn [userId sessionCookie] in *.
        subst. reflexivity.
Qed.

Lemma X11_POST_sets_a_cookie_only_when_minted_witness :
  lit "POST" = lit "POST"
  /\ (exists key, OPENAI_API_KEY sample_process = Some key /\ key <> [])
  /\ origin request_without_cookie = Generated
  /\ exists cookie,
       resolveUserId request_without_cookie (process_env sample_process)
         (CryptoRandomUUID sample_uuid)
       = Ok {| userId := generate (CryptoRandomUUID sample_uuid);
               sessionCookie := Some cookie |}
       /\ [wire_format true sample_uuid] = [cookie].
Proof.
  apply (X11_POST_sets_a_cookie_only_when_minted sample_WORKFLOW_ID
           sample_JSON_parse sample_fetch_200 (lit "POST") sample_process
           request_without_cookie None (CryptoRandomUUID sample_uuid)
           {| response_status := 200;
              response_headers :=
                [(lit "Content-Type", lit "application/json");
                 (lit "Set-Cookie", wire_format true sample_uuid)];
              response_body :=
                JObject [(lit "client_secret", JString (lit "cs_1"));
                         (lit "expires_after", JNull)] |}).
  - reflexivity.
  - discriminate.
Defined.

(** X12: a [workflow.id] of the body that is present, not [null] and falsy
    (an empty string, [0], [false]) is not replaced by [workflowId] nor by
    the configured [WORKFLOW_ID]: the handler answers 400
    [Missing workflow id], with the cookie of the resolution, and does not
    call the upstream. *)
Theorem X12_POST_falsy_workflow_id_is_missing
    (WORKFLOW_ID : jsstring) (JSON_parse : jsstring -> option json)
    (fetch : UpstreamRequest -> option UpstreamResponse)
    (process : Process) (request : Request)
    (text : option jsstring) (rnd : RandomSource)
    (key : jsstring) (r : Resolved) (id : json) :
  OPENAI_API_KEY process = Some key ->
  key <> [] ->
  resolveUserId request (process_env process) rnd = Ok r ->
  get_opt (get (safeParseJson JSON_parse text) (lit "workflow")) (lit "id")
  = Some id ->
  id <> JNull ->
  json_truthy id = false ->
  POST WORKFLOW_ID JSON_parse fetch (lit "POST") process request text rnd
  = Some {| response_status := 400;
            response_headers := headers_after r;
            response_body := error_payload (lit "Missing workflow id") |}.
Proof.
  intros Hkey Hne Hr Hid Hnull Hfalsy.
  rewrite (POST_resolved _ _ _ _ _ _ _ key r Hkey Hne Hr). cbv zeta.
  assert (Hwf : resolveWorkflowId WORKFLOW_ID (safeParseJson JSON_parse text)
                = id).
  { unfold resolveWorkflowId. rewrite Hid.
    destruct id; try reflexivity. congruence. }
  rewrite Hwf, Hfalsy. reflexivity.
Qed.

Lemma X12_POST_falsy_workflow_id_is_missing_witness :
  POST sample_WORKFLOW_ID sample_JSON_parse sample_fetch_200 (lit "POST")
    sample_process (request_with "chatkit_session_id=abc")
    (Some (lit "{workflow:{id:0}}")) (CryptoRandomUUID sample_uuid)
  = Some {| response_status := 400;
            response_headers := json_content_type;
            response_body := error_payload (lit "Missing workflow id") |}.
Proof.
  apply (X12_POST_falsy_workflow_id_is_missing sample_WORKFLOW_ID
           sample_JSON_parse sample_fetch_200 sample_process
           (request_with "chatkit_session_id=abc")
           (Some (lit "{workflow:{id:0}}")) (CryptoRandomUUID sample_uuid)
           (lit "sk-test") {| userId := lit "abc"; sessionCookie := None |}
           (JNumber 0%float)).
  - reflexivity.
  - discriminate.
  - reflexivity.
  - reflexivity.
  - discriminate.
  - reflexivity.
Defined.
